(** * AutomaticClozeCards: a shallow embedding of change_logic.py and
    config_dialog.py, and the properties of the add-on checked against it.

    Conventions of the embedding:
    - a Python [str] is the list of its code points ([N]);
    - Python objects that are mutated through a reference (the [Note] handed
      to the add-note hook) live in a heap indexed by references;
    - a Python call that may raise returns a [res]: [Ret v] or [Raise e];
    - what [print] writes is not part of the model. *)

From Stdlib Require Import ZArith NArith List Bool Lia String Ascii.
From stdpp Require Import base option list gmap sets strings sorting.

Local Open Scope Z_scope.

(** ** Python values, strings and exceptions *)

Definition pystr := list N.

(** The code points of an ASCII literal of the source. *)
Definition lit (s : string) : pystr :=
  map N_of_ascii (list_ascii_of_string s).

Definition ch (a : ascii) : N := N_of_ascii a.

(** The dynamically typed values a note field may hold. *)
Inductive PyVal :=
  | PStr (s : pystr)
  | PBytes (b : list N)
  | PInt (z : Z)
  | PNone.

Definition isinstance_str (v : PyVal) : bool :=
  match v with PStr _ => true | _ => false end.

Inductive exn :=
  | TypeError
  | AttributeError
  | IndexError
  | HostError.

Inductive res (A : Type) :=
  | Ret (a : A)
  | Raise (e : exn).
Arguments Ret {A} a.
Arguments Raise {A} e.

#[global] Instance res_ret : MRet res := fun _ a => Ret a.
#[global] Instance res_bind : MBind res := fun _ _ f m =>
  match m with Ret a => f a | Raise e => Raise e end.

(** [try: body except Exception: handler]. *)
Definition try_except {A} (body : res A) (handler : exn -> res A) : res A :=
  match body with Ret a => Ret a | Raise e => handler e end.

(** [l[i]] and [l[i] = v] on a Python list; both raise IndexError out of
    range (indices here are the non-negative values of a [range]). *)
Definition py_getitem {A} (l : list A) (i : nat) : res A :=
  match l !! i with Some v => Ret v | None => Raise IndexError end.

Definition py_setitem {A} (l : list A) (i : nat) (v : A) : res (list A) :=
  if decide (i < length l)%nat then Ret (<[i:=v]> l) else Raise IndexError.

(** Comparison [a >= b] of two tuples of ints (lexicographic, a proper
    prefix being smaller). *)
Fixpoint tuple_ge (a b : list Z) : bool :=
  match a, b with
  | _, [] => true
  | [], _ :: _ => false
  | x :: a', y :: b' =>
      if x <? y then false else if y <? x then true else tuple_ge a' b'
  end.

(** ** The fragment of [re] that CLOZE_RE uses *)

Module Re.

Inductive atom :=
  | Chr (c : N)      (* an escaped or plain literal character *)
  | Digit            (* \d *)
  | Dot.             (* . *)

Inductive quant :=
  | Once
  | Plus             (* +, greedy *)
  | LazyStar.        (* *?, lazy *)

Definition regex := list (atom * quant).

Section Engine.
(** [\d] on a [str] pattern is the Unicode decimal-digit class of the
    host's Python build; the table is not part of the add-on. *)
Variable unicode_Nd : N -> bool.
(** The [re.DOTALL] flag. *)
Variable dotall : bool.

Definition accepts (a : atom) (c : N) : bool :=
  match a with
  | Chr c' => N.eqb c c'
  | Digit => unicode_Nd c
  | Dot => dotall || negb (N.eqb c 10)
  end.

(** Greedy repetition: take one more character first, fall back to the
    continuation. *)
Fixpoint greedy (a : atom) (k : pystr -> bool) (s : pystr) : bool :=
  match s with
  | c :: s' => (accepts a c && greedy a k s') || k s
  | [] => k []
  end.

(** Lazy repetition: try the continuation first, take one more character
    only when it fails. *)
Fixpoint lazy (a : atom) (k : pystr -> bool) (s : pystr) : bool :=
  k s || match s with
         | c :: s' => accepts a c && lazy a k s'
         | [] => false
         end.

(** Does [r] match a prefix of [s]? *)
Fixpoint match_here (r : regex) (s : pystr) : bool :=
  match r with
  | [] => true
  | (a, Once) :: r' =>
      match s with
      | c :: s' => accepts a c && match_here r' s'
      | [] => false
      end
  | (a, Plus) :: r' =>
      match s with
      | c :: s' => accepts a c && greedy a (match_here r') s'
      | [] => false
      end
  | (a, LazyStar) :: r' => lazy a (match_here r') s
  end.

(** Scan the start positions left to right. *)
Fixpoint search_str (r : regex) (s : pystr) : bool :=
  match_here r s ||
  match s with
  | _ :: s' => search_str r s'
  | [] => false
  end.
End Engine.

(** [re.search(pattern, string, flags)] for a [str] pattern, as a truth
    value (a match object is truthy, [None] is falsy); anything but a [str]
    subject raises TypeError. *)
Definition search (unicode_Nd : N -> bool) (r : regex) (v : PyVal)
    (dotall : bool) : res bool :=
  match v with
  | PStr s => Ret (search_str unicode_Nd dotall r s)
  | _ => Raise TypeError
  end.

End Re.

(** CLOZE_RE = r"\{\{c\d+::.*?\}\}" *)
Definition CLOZE_RE : Re.regex :=
  [ (Re.Chr (ch "{"), Re.Once); (Re.Chr (ch "{"), Re.Once);
    (Re.Chr (ch "c"), Re.Once);
    (Re.Digit, Re.Plus);
    (Re.Chr (ch ":"), Re.Once); (Re.Chr (ch ":"), Re.Once);
    (Re.Dot, Re.LazyStar);
    (Re.Chr (ch "}"), Re.Once); (Re.Chr (ch "}"), Re.Once) ].

(** ** The host's data model (anki.notes, anki.models, anki.collection) *)

(** A note type ("model") dictionary; the add-on reads "id" and "flds". *)
Record NotetypeDict := {
  nt_id : Z;
  nt_name : pystr;
  nt_flds : list pystr
}.

Record Collection := {
  col_models : list NotetypeDict;
  col_usn : Z
}.

(** [col.models.get(id)]: the note type with that id, or [None]. *)
Definition models_get (c : Collection) (id : Z) : option NotetypeDict :=
  find (fun m => nt_id m =? id) (col_models c).

Record Note := {
  note_col : Collection;
  note_id : Z;
  note_guid : pystr;
  note_mid : Z;
  note_fields : list PyVal;
  note_tags : list pystr;
  note_mod : Z;
  note_usn : Z
}.

(** [note.note_type()] is [self.col.models.get(self.mid)]. *)
Definition note_type (n : Note) : option NotetypeDict :=
  models_get (note_col n) (note_mid n).

(** The four attribute assignments the add-on performs. *)
Definition set_mid (v : Z) (n : Note) : Note :=
  {| note_col := note_col n; note_id := note_id n; note_guid := note_guid n;
     note_mid := v; note_fields := note_fields n; note_tags := note_tags n;
     note_mod := note_mod n; note_usn := note_usn n |}.

Definition set_fields (v : list PyVal) (n : Note) : Note :=
  {| note_col := note_col n; note_id := note_id n; note_guid := note_guid n;
     note_mid := note_mid n; note_fields := v; note_tags := note_tags n;
     note_mod := note_mod n; note_usn := note_usn n |}.

Definition set_mod (v : Z) (n : Note) : Note :=
  {| note_col := note_col n; note_id := note_id n; note_guid := note_guid n;
     note_mid := note_mid n; note_fields := note_fields n;
     note_tags := note_tags n; note_mod := v; note_usn := note_usn n |}.

Definition set_usn (v : Z) (n : Note) : Note :=
  {| note_col := note_col n; note_id := note_id n; note_guid := note_guid n;
     note_mid := note_mid n; note_fields := note_fields n;
     note_tags := note_tags n; note_mod := note_mod n; note_usn := v |}.

Section ChangeLogic.

(** The decimal-digit table behind [\d]. *)
Variable unicode_Nd : N -> bool.

(** ** Cloze detection *)

(** The [for] loop of [contains_cloze]: [Ret true] is the [return True]
    inside the loop, [Ret false] is the loop running to its end. *)
Fixpoint scan_fields (fields : list PyVal) : res bool :=
  match fields with
  | [] => Ret false
  | fld_content :: rest =>
      if isinstance_str fld_content then
        m ← Re.search unicode_Nd CLOZE_RE fld_content true;
        if m : bool then Ret true else scan_fields rest
      else scan_fields rest
  end.

(** [note] is a reference or [None]; what is read of the object is its
    current state. *)
Definition contains_cloze (note : option Note) : res bool :=
  match note with
  | None => Ret false
  | Some n =>
      match note_fields n with
      | [] => Ret false
      | _ :: _ =>
          try_except (scan_fields (note_fields n)) (fun _ => Ret false)
      end
  end.

(** ** Program state *)

(** References to live [Note] objects. *)
Definition loc := positive.

(** The module globals of change_logic.py that the hooks read, and the part
    of the host they touch. *)
Record World := {
  source_model_ids : list Z;
  target_model_id : option Z;
  ANKI_VERSION_TUPLE : list Z;
  heap : gmap loc Note;            (* the Note objects, by reference *)
  mw_col : option Collection;      (* mw.col, None while no collection is open *)
  clock : Z;                       (* what int(time.time()) evaluates to *)
  db_ok : bool;                    (* whether the host's flush succeeds *)
  flushed : list (loc * Note)      (* the calls of note.flush(), in order *)
}.

Definition with_heap (h : gmap loc Note) (w : World) : World :=
  {| source_model_ids := source_model_ids w;
     target_model_id := target_model_id w;
     ANKI_VERSION_TUPLE := ANKI_VERSION_TUPLE w;
     heap := h; mw_col := mw_col w; clock := clock w; db_ok := db_ok w;
     flushed := flushed w |}.

Definition with_flushed (f : list (loc * Note)) (w : World) : World :=
  {| source_model_ids := source_model_ids w;
     target_model_id := target_model_id w;
     ANKI_VERSION_TUPLE := ANKI_VERSION_TUPLE w;
     heap := heap w; mw_col := mw_col w; clock := clock w; db_ok := db_ok w;
     flushed := f |}.

(** An attribute assignment through the reference [note]. *)
Definition assign (f : Note -> Note) (note : loc) (w : World) : World :=
  with_heap (alter f note (heap w)) w.

(** [note.flush()]: a host call that writes the object's current state and
    may fail. *)
Definition note_flush (note : loc) (w : World) : res unit * World :=
  match heap w !! note with
  | None => (Raise AttributeError, w)
  | Some n =>
      let w' := with_flushed (flushed w ++ [(note, n)]) w in
      if db_ok w then (Ret tt, w') else (Raise HostError, w')
  end.

(** [x in xs] on a list of ints. *)
Definition py_in (x : Z) (xs : list Z) : bool := bool_decide (x ∈ xs).

(** ** Note type conversion *)

(** [for i in range(copy_len): new_fields[i] = old_fields[i]] *)
Fixpoint copy_loop (range : list nat) (old_fields new_fields : list PyVal)
    : res (list PyVal) :=
  match range with
  | [] => Ret new_fields
  | i :: range' =>
      v ← py_getitem old_fields i;
      new_fields' ← py_setitem new_fields i v;
      copy_loop range' old_fields new_fields'
  end.

(** The body of the [try] block of [on_add_note_change_type]. *)
Definition convert (note : loc) (n : Note) (target_model_id : Z)
    (target_model_dict : NotetypeDict) (w : World) : res unit * World :=
  let new_field_count := length (nt_flds target_model_dict) in
  let old_fields := note_fields n in
  let old_field_count := length old_fields in
  let new_fields := replicate new_field_count (PStr (lit "")) in
  let copy_len := Nat.min old_field_count new_field_count in
  match copy_loop (seq 0 copy_len) old_fields new_fields with
  | Raise e => (Raise e, w)
  | Ret new_fields =>
      let w := assign (set_mid target_model_id) note w in
      let w := assign (set_fields new_fields) note w in
      let w := assign (set_mod (clock w)) note w in
      let w := match mw_col w with
               | Some c => assign (set_usn (col_usn c)) note w
               | None => w
               end in
      note_flush note w
  end.

(** The hook receives a reference to the added note.  Every [return] of the
    source is a [(Ret tt, w)] here; a reference outside the heap stands for
    an argument without the attributes of a note. *)
Definition on_add_note_change_type (note : loc) (w : World)
    : res unit * World :=
  match source_model_ids w with
  | [] => (Ret tt, w)
  | _ :: _ =>
  match target_model_id w with
  | None => (Ret tt, w)
  | Some target =>
  match heap w !! note with
  | None => (Raise AttributeError, w)
  | Some n =>
  let current_mid := note_mid n in
  match note_type n with
  | None => (Ret tt, w)
  | Some nt =>
  if negb (py_in (nt_id nt) (source_model_ids w)) then (Ret tt, w) else
  match contains_cloze (Some n) with
  | Raise e => (Raise e, w)
  | Ret false => (Ret tt, w)
  | Ret true =>
  match mw_col w with
  | None => (Raise AttributeError, w)
  | Some c =>
  match models_get c target with
  | None => (Ret tt, w)
  | Some target_model_dict =>
  if current_mid =? target then (Ret tt, w) else
  match convert note n target target_model_dict w with
  | (Ret _, w') => (Ret tt, w')
  | (Raise _, w') => (Ret tt, w')          (* except Exception: print *)
  end end end end end end end end.

(** ** Editor setup *)

(** The three scripts handed to [editor.web.eval]. *)
Inductive Script :=
  | show_cloze_toolbar_52
  | show_cloze_templateButtons_50
  | show_cloze_editorToolbar_45.

(** An editor: its note (only read here) and its web view, which is [None]
    once the editor is cleaned up; a web view is the scripts it was given. *)
Record Editor := {
  ed_note : option Note;
  ed_web : option (list Script)
}.

Definition web_eval (js : Script) (editor : Editor) : res Editor :=
  match ed_web editor with
  | None => Raise AttributeError
  | Some evaluated =>
      Ret {| ed_note := ed_note editor; ed_web := Some (evaluated ++ [js]) |}
  end.

(** The result is the editor after the call. *)
Definition show_cloze_button_if_source (w : World) (editor : option Editor)
    : option Editor :=
  match source_model_ids w with
  | [] => editor
  | _ :: _ =>
  match editor with
  | None => editor
  | Some e =>
  match ed_note e with
  | None => editor
  | Some n =>
  match note_type n with
  | None => editor
  | Some current_note_type =>
  if negb (py_in (nt_id current_note_type) (source_model_ids w)) then editor
  else
    let attempt :=
      if tuple_ge (ANKI_VERSION_TUPLE w) [2; 1; 52]
      then web_eval show_cloze_toolbar_52 e
      else if tuple_ge (ANKI_VERSION_TUPLE w) [2; 1; 50]
      then web_eval show_cloze_templateButtons_50 e
      else if tuple_ge (ANKI_VERSION_TUPLE w) [2; 1; 45]
      then web_eval show_cloze_editorToolbar_45 e
      else Ret e in
    match attempt with
    | Ret e' => Some e'
    | Raise _ => editor                     (* except Exception: print *)
    end
  end end end end.

(** ** Suppressing the validation error *)

(** The members of the host's NoteFieldsCheckResult that exist for the
    add-on: the host's states and the INVALID_INPUT the wrapper names. *)
Inductive NoteFieldsCheckResult :=
  | NORMAL
  | EMPTY
  | DUPLICATE
  | MISSING_CLOZE
  | NOTETYPE_NOT_CLOZE
  | FIELD_NOT_CLOZE
  | INVALID_INPUT.

#[global] Instance NoteFieldsCheckResult_eq_dec :
  EqDecision NoteFieldsCheckResult.
Proof. solve_decision. Defined.

(** A [fields_check] implementation: a host call that may raise. *)
Definition checker := Note -> res NoteFieldsCheckResult.

(** The [try] block holding the suppression logic. *)
Definition suppression (w : World) (note_instance : Note)
    (original_result : NoteFieldsCheckResult) : res NoteFieldsCheckResult :=
  col ← match mw_col w with
        | Some c => Ret c
        | None => Raise AttributeError
        end;
  match models_get col (note_mid note_instance) with
  | None => Ret original_result
  | Some note_type =>
      let is_source_model := py_in (nt_id note_type) (source_model_ids w) in
      let is_cloze_related_error :=
        bool_decide (original_result = NOTETYPE_NOT_CLOZE)
        || bool_decide (original_result = FIELD_NOT_CLOZE) in
      has_cloze_syntax ← contains_cloze (Some note_instance);
      if is_source_model && is_cloze_related_error && has_cloze_syntax
      then Ret NORMAL
      else Ret original_result
  end.

(** [_original_fields_check] is the module global (None until the patch is
    applied); [Note_fields_check] is what the class attribute resolves to
    when the wrapper falls back to it. *)
Definition wrapped_fields_check (_original_fields_check : option checker)
    (Note_fields_check : checker) (w : World) (note_instance : Note)
    : NoteFieldsCheckResult :=
  let original :=
    match _original_fields_check with
    | Some f =>
        match f note_instance with
        | Ret r => inl r
        | Raise _ => inr NORMAL            (* return original_result *)
        end
    | None =>
        match Note_fields_check note_instance with
        | Ret r => inl r
        | Raise _ => inr INVALID_INPUT
        end
    end in
  match original with
  | inr early => early
  | inl original_result =>
      match suppression w note_instance original_result with
      | Ret r => r
      | Raise _ => original_result
      end
  end.

End ChangeLogic.

(** ** Installing the wrapper (the module-level statements after the
    definition of [wrapped_fields_check]) *)

(** What a method slot of the class [Note] can hold: the host's own
    implementation, or the [wrapped_fields_check] of a run of the module
    whose global [_original_fields_check] is [original]. *)
Inductive Method :=
  | HostMethod
  | Wrapped (original : Method).

(** The two attributes of the class [Note] the patch reads and writes;
    [None] is an absent attribute. *)
Record NoteClass := {
  fields_check : option Method;
  _fields_check_original_auto_cloze : option Method
}.

(** One execution of the module-level patch logic.  The second component is
    the module global [_original_fields_check] it leaves behind.
    [has_NoteFieldsCheckResult] is the truth value of the imported name. *)
Definition apply_patch (has_NoteFieldsCheckResult : bool) (cls : NoteClass)
    : NoteClass * option Method :=
  let _original_fields_check : option Method := None in
  if has_NoteFieldsCheckResult then
    match fields_check cls, _fields_check_original_auto_cloze cls with
    | Some current, None =>
        let _original_fields_check := current in
        ({| fields_check := Some (Wrapped _original_fields_check);
            _fields_check_original_auto_cloze := Some _original_fields_check |},
         Some _original_fields_check)
    | _, Some _ => (cls, _original_fields_check)       (* pass *)
    | None, None => (cls, _original_fields_check)      (* print *)
    end
  else (cls, _original_fields_check).

(** How many of the add-on's wrappers are stacked in a method. *)
Fixpoint wrappers (m : Method) : nat :=
  match m with
  | HostMethod => 0
  | Wrapped original => S (wrappers original)
  end.

Definition stacked (cls : NoteClass) : nat :=
  match fields_check cls with
  | Some m => wrappers m
  | None => 0
  end.

(** Running the module [k] times. *)
Fixpoint run_module (has_NoteFieldsCheckResult : bool) (k : nat)
    (cls : NoteClass) : NoteClass :=
  match k with
  | O => cls
  | S k' => run_module has_NoteFieldsCheckResult k'
              (fst (apply_patch has_NoteFieldsCheckResult cls))
  end.

(** ** config_dialog.py: ConfigDialog.save_config *)

Definition CONFIG_KEY_TARGET_MODEL : string := "target_model_id".
Definition CONFIG_KEY_SOURCE_MODELS : string := "source_model_ids".

(** The JSON values of the add-on's configuration. *)
Inductive CfgVal :=
  | CNull
  | CInt (z : Z)
  | CList (l : list Z).

(** The messages of [showInfo] and [tooltip]. *)
Inductive Message :=
  | info_select_target
  | info_source_is_target
  | info_source_duplicate
  | info_empty_row
  | info_no_source
  | info_save_error
  | tooltip_saved.

(** The dialog: [self.config], [itemData(currentIndex())] of the target
    combo box and of the combo box of every row of [self.source_widgets]
    ([None] on the placeholder), and whether [accept()] has closed it.  The
    add-on manager: the configuration on disk and whether writing works. *)
Record ConfigDialog := {
  config : gmap string CfgVal;
  target_combo : option Z;
  source_widgets : list (option Z);
  accepted : bool;
  stored_config : gmap string CfgVal;
  write_ok : bool;
  shown : list Message
}.

Definition show (m : Message) (d : ConfigDialog) : ConfigDialog :=
  {| config := config d; target_combo := target_combo d;
     source_widgets := source_widgets d; accepted := accepted d;
     stored_config := stored_config d; write_ok := write_ok d;
     shown := shown d ++ [m] |}.

Definition set_config (c : gmap string CfgVal) (d : ConfigDialog)
    : ConfigDialog :=
  {| config := c; target_combo := target_combo d;
     source_widgets := source_widgets d; accepted := accepted d;
     stored_config := stored_config d; write_ok := write_ok d;
     shown := shown d |}.

(** [mw.addonManager.writeConfig(__name__, self.config)] *)
Definition writeConfig (d : ConfigDialog) : res ConfigDialog :=
  if write_ok d then
    Ret {| config := config d; target_combo := target_combo d;
           source_widgets := source_widgets d; accepted := accepted d;
           stored_config := config d; write_ok := write_ok d;
           shown := shown d |}
  else Raise HostError.

Definition accept (d : ConfigDialog) : ConfigDialog :=
  {| config := config d; target_combo := target_combo d;
     source_widgets := source_widgets d; accepted := true;
     stored_config := stored_config d; write_ok := write_ok d;
     shown := shown d |}.

(** Truth value of an [itemData]: [None] and 0 are falsy. *)
Definition truthy (data : option Z) : bool :=
  match data with
  | Some id => negb (id =? 0)
  | None => false
  end.

(** The validation loop over [self.source_widgets]; [inl m] is a [break]
    with [valid_config = False] after showing [m], [inr ids] is the loop
    running to its end with [selected_source_ids = ids]. *)
Fixpoint check_rows (rows : list (option Z)) (current_target_id : Z)
    (used_source_ids : gset Z) (selected_source_ids : list Z)
    : Message + list Z :=
  match rows with
  | [] => inr selected_source_ids
  | data :: rows' =>
      match data with
      | Some source_id =>
          if negb (truthy data) then inl info_empty_row
          else if source_id =? current_target_id then inl info_source_is_target
          else if bool_decide (source_id ∈ used_source_ids)
          then inl info_source_duplicate
          else check_rows rows' current_target_id
                 ({[source_id]} ∪ used_source_ids)
                 (selected_source_ids ++ [source_id])
      | None => inl info_empty_row
      end
  end.

Definition save_config (d : ConfigDialog) : ConfigDialog :=
  match target_combo d with
  | None => show info_select_target d
  | Some current_target_id =>
  if negb (truthy (target_combo d)) then show info_select_target d else
  match check_rows (source_widgets d) current_target_id ∅ [] with
  | inl m => show m d
  | inr selected_source_ids =>
  match selected_source_ids with
  | [] => show info_no_source d
  | _ :: _ =>
      let d := set_config (<[CONFIG_KEY_TARGET_MODEL := CInt current_target_id]>
                             (config d)) d in
      let d := set_config (<[CONFIG_KEY_SOURCE_MODELS := CList selected_source_ids]>
                             (config d)) d in
      match writeConfig d with
      | Ret d => accept (show tooltip_saved d)
      | Raise _ => show info_save_error d
      end
  end end end.

(** ** change_logic.py: reading the configuration into the globals *)

#[global] Instance CfgVal_eq_dec : EqDecision CfgVal.
Proof. solve_decision. Defined.

(** [[int(mid) for mid in v if mid is not None]], [v] being
    [config.get(CONFIG_KEY_SOURCE_MODELS, [])].  The lists of the model hold
    ints only, on which [int] is the identity and the filter keeps
    everything; iterating over a value that is no list raises TypeError. *)
Definition read_source_ids (v : option CfgVal) : res (list Z) :=
  match v with
  | None => Ret []
  | Some (CList l) => Ret l
  | Some CNull => Raise TypeError
  | Some (CInt _) => Raise TypeError
  end.

(** [int(raw) if raw is not None else None], [raw] being
    [config.get(CONFIG_KEY_TARGET_MODEL, None)]. *)
Definition read_target_id (v : option CfgVal) : res (option Z) :=
  match v with
  | None => Ret None
  | Some CNull => Ret None
  | Some (CInt z) => Ret (Some z)
  | Some (CList _) => Raise TypeError
  end.

Definition with_globals (srcs : list Z) (tgt : option Z) (w : World) : World :=
  {| source_model_ids := srcs; target_model_id := tgt;
     ANKI_VERSION_TUPLE := ANKI_VERSION_TUPLE w;
     heap := heap w; mw_col := mw_col w; clock := clock w; db_ok := db_ok w;
     flushed := flushed w |}.

(** The two assignments that read a configuration into the globals. *)
Definition read_globals (cfg : gmap string CfgVal) (w : World) : res World :=
  srcs ← read_source_ids (cfg !! CONFIG_KEY_SOURCE_MODELS);
  tgt ← read_target_id (cfg !! CONFIG_KEY_TARGET_MODEL);
  Ret (with_globals srcs tgt w).


(** [show_config_dialog]: [dialog] is the dialog object when [exec()]
    returns, and [exec()] is true exactly when [accept()] closed it.  The
    assignment to the global [config], which nothing reads afterwards, is
    left out. *)
Definition show_config_dialog (dialog : ConfigDialog) (w : World) : res World :=
  if accepted dialog then
    let new_config := config dialog in
    if bool_decide (new_config = ∅) then Ret w       (* an empty dict is falsy *)
    else read_globals new_config w
  else Ret w.

(** ** change_logic.py: the compatibility hooks for hosts without
    NoteFieldsCheckResult *)

(** A card template; [tmpl.get('qfmt', '')] and [tmpl.get('afmt', '')]. *)
Record Template := {
  qfmt : pystr;
  afmt : pystr
}.

(** The note type dictionary as the compatibility hooks use it: "id", the
    entry "type" ([None] when the key is absent) and "tmpls". *)
Record LegacyNotetype := {
  lt_id : Z;
  lt_type : option Z;
  lt_tmpls : list Template
}.

(** What the attribute [re.search] can hold: the interpreter's function or
    the [newSearch] closure of [hook_re_search_if_needed]. *)
Inductive SearchImpl :=
  | host_search
  | newSearch.

(** The attribute [re.search] and the two globals of the hook. *)
Record ReModule := {
  re_search : SearchImpl;
  _oldReSearch : option SearchImpl;
  _re_search_hooked_by_auto_cloze : bool
}.

(** The editor the wrappers of [Editor._onCloze] receive: the dictionary
    [self.note.note_type()] returns (the host hands out the same dictionary
    on every call, so an assignment to its entries is seen by the next
    call), [self.addMode] ([None] when the attribute is absent), and the
    state of the module [re]. *)
Record LegacyEditor := {
  le_note_type : option LegacyNotetype;
  le_addMode : option bool;
  le_re : ReModule
}.

Definition with_note_type (nt : option LegacyNotetype) (self : LegacyEditor)
    : LegacyEditor :=
  {| le_note_type := nt; le_addMode := le_addMode self; le_re := le_re self |}.

Definition with_re (r : ReModule) (self : LegacyEditor) : LegacyEditor :=
  {| le_note_type := le_note_type self; le_addMode := le_addMode self;
     le_re := r |}.

(** _clozeCheckerTemplateRegex = r"\{\{(?:[^:]+?:)*cloze:" *)
Definition _clozeCheckerTemplateRegex : pystr := lit "\{\{(?:[^:]+?:)*cloze:".

(** [hook_re_search_if_needed]; [re] always has a callable [search]. *)
Definition hook_re_search_if_needed (st : ReModule) : ReModule :=
  if _re_search_hooked_by_auto_cloze st then st
  else
    let old := match _oldReSearch st with
               | None => Some (re_search st)
               | Some g => Some g
               end in
    {| re_search := newSearch; _oldReSearch := old;
       _re_search_hooked_by_auto_cloze := true |}.

(** [unhook_re_search_if_hooked] *)
Definition unhook_re_search_if_hooked (st : ReModule) : ReModule :=
  match _re_search_hooked_by_auto_cloze st, _oldReSearch st with
  | true, Some old =>
      {| re_search := old; _oldReSearch := None;
         _re_search_hooked_by_auto_cloze := false |}
  | _, _ => st
  end.

(** [self.note.note_type()['type'] = v]; on [None] the item assignment
    raises TypeError. *)
Definition set_type (v : Z) (self : LegacyEditor) : res unit * LegacyEditor :=
  match le_note_type self with
  | None => (Raise TypeError, self)
  | Some nt =>
      (Ret tt,
       with_note_type
         (Some {| lt_id := lt_id nt; lt_type := Some v;
                  lt_tmpls := lt_tmpls nt |}) self)
  end.

(** [if 'type' in self.note.note_type(): del self.note.note_type()['type']] *)
Definition del_type (self : LegacyEditor) : res unit * LegacyEditor :=
  match le_note_type self with
  | None => (Raise TypeError, self)
  | Some nt =>
      (Ret tt,
       with_note_type
         (Some {| lt_id := lt_id nt; lt_type := None;
                  lt_tmpls := lt_tmpls nt |}) self)
  end.

(** [hasattr(self, 'addMode') and self.addMode] *)
Definition in_add_mode (self : LegacyEditor) : bool :=
  match le_addMode self with
  | Some b => b
  | None => false
  end.

Section Legacy.

(** The result type of [Editor._onCloze]. *)
Variable R : Type.
(** The constant MODEL_CLOZE, 1 or what the host exports under that name. *)
Variable MODEL_CLOZE : Z.
(** The interpreter's [re.search(pattern, string, flags)], as the truth
    value of its result. *)
Variable re_search_host : pystr -> pystr -> Z -> res bool.
(** The global [source_model_ids]. *)
Variable sources : list Z.

(** A call [f(pattern, string, flags)] of what [re.search] holds.
    [newSearch] reads the global [_oldReSearch] when it is called; handed
    another [newSearch] it would call itself without end, which the
    interpreter stops with an error. *)
Definition call_search (st : ReModule) (f : SearchImpl)
    (pattern string : pystr) (flags : Z) : res bool :=
  match f with
  | host_search => re_search_host pattern string flags
  | newSearch =>
      let original_search_func :=
        match _oldReSearch st with
        | Some g => g
        | None => re_search st
        end in
      if bool_decide (pattern = _clozeCheckerTemplateRegex) then Ret true
      else match original_search_func with
           | host_search => re_search_host pattern string flags
           | newSearch => Raise HostError
           end
  end.

(** The wrapped method: it may change the editor and the module [re], and
    may raise. *)
Definition OnCloze := LegacyEditor -> res R * LegacyEditor.

(** [_onClozeNew_40] *)
Definition _onClozeNew_40 (_old : OnCloze) (self : LegacyEditor)
    : res (option R) * LegacyEditor :=
  match le_note_type self with
  | None => (Ret None, self)
  | Some note_type =>
      let model_id := lt_id note_type in
      if py_in model_id sources && in_add_mode self then
        let model_type_backup := lt_type note_type in
        (* try *)
        let '(needs_restore, self) :=
          if bool_decide (model_type_backup <> Some MODEL_CLOZE)
          then (true, snd (set_type MODEL_CLOZE self))
          else (false, self) in
        let '(result, self) := _old self in
        (* finally *)
        let '(restored, self) :=
          if needs_restore : bool then
            match model_type_backup with
            | Some backup => set_type backup self
            | None => del_type self
            end
          else (Ret tt, self) in
        match restored with
        | Raise e => (Raise e, self)
        | Ret _ =>
            match result with
            | Ret r => (Ret (Some r), self)
            | Raise e => (Raise e, self)
            end
        end
      else
        let '(result, self) := _old self in
        match result with
        | Ret r => (Ret (Some r), self)
        | Raise e => (Raise e, self)
        end
  end.

(** The loop over the templates in [_onClozeNew_old]: [Ret true] is a
    [break] after a match, [Ret false] the loop running to its end. *)
Fixpoint scan_templates (st : ReModule) (tmpls : list Template) : res bool :=
  match tmpls with
  | [] => Ret false
  | tmpl :: rest =>
      q ← call_search st (re_search st) _clozeCheckerTemplateRegex (qfmt tmpl) 0;
      if q : bool then Ret true
      else
        a ← call_search st (re_search st) _clozeCheckerTemplateRegex
              (afmt tmpl) 0;
        if a : bool then Ret true else scan_templates st rest
  end.

(** [_onClozeNew_old] *)
Definition _onClozeNew_old (_old : OnCloze) (self : LegacyEditor)
    : res (option R) * LegacyEditor :=
  match le_note_type self with
  | None => (Ret None, self)
  | Some note_type =>
      let model_id := lt_id note_type in
      let '(was_hooked, self) :=
        if py_in model_id sources && in_add_mode self then
          let template_has_cloze_format :=
            match scan_templates (le_re self) (lt_tmpls note_type) with
            | Ret b => b
            | Raise _ => false                      (* except Exception: pass *)
            end in
          if negb template_has_cloze_format
          then (true, with_re (hook_re_search_if_needed (le_re self)) self)
          else (false, self)
        else (false, self) in
      (* try *)
      let '(result, self) := _old self in
      (* finally *)
      let self :=
        if was_hooked : bool
        then with_re (unhook_re_search_if_hooked (le_re self)) self
        else self in
      match result with
      | Ret r => (Ret (Some r), self)
      | Raise e => (Raise e, self)
      end
  end.

End Legacy.

(** The class [Editor] as the module-level statements see it: the method
    slot [_onCloze] ([None] when the host has none) and whether the marker
    attribute is present. *)
Inductive EditorMethod :=
  | HostOnCloze
  | Around40 (old : EditorMethod)       (* wrap(old, _onClozeNew_40, "around") *)
  | AroundOld (old : EditorMethod).     (* wrap(old, _onClozeNew_old, "around") *)

Record EditorClass := {
  _onCloze : option EditorMethod;
  _onCloze_wrapped_by_auto_cloze : bool
}.

(** The wrapping step shared by the two compatibility branches. *)
Definition wrap_onCloze (around : EditorMethod -> EditorMethod)
    (cls : EditorClass) : EditorClass :=
  match _onCloze cls with
  | None => cls
  | Some old =>
      if _onCloze_wrapped_by_auto_cloze cls then cls
      else {| _onCloze := Some (around old);
              _onCloze_wrapped_by_auto_cloze := true |}
  end.

(** The three-way choice at module level: wrap [Note.fields_check], or one
    of the two wrappers of [Editor._onCloze], by what the host offers. *)
Definition install_patches (has_NoteFieldsCheckResult : bool)
    (version : list Z) (classes : NoteClass * EditorClass)
    : NoteClass * EditorClass :=
  if has_NoteFieldsCheckResult then
    (fst (apply_patch true (fst classes)), snd classes)
  else if tuple_ge version [2; 1; 40] then
    (fst classes, wrap_onCloze Around40 (snd classes))
  else
    (fst classes, wrap_onCloze AroundOld (snd classes)).

Fixpoint wraps (m : EditorMethod) : nat :=
  match m with
  | HostOnCloze => 0
  | Around40 old => S (wraps old)
  | AroundOld old => S (wraps old)
  end.

(** ** config_dialog.py: the form behind [save_config] *)

(** A combo box is the [itemData] of its entries and its current index
    (-1 while nothing is selected: the placeholder text is set before the
    entries are added).  [itemData(i)] is [None] outside the entries. *)
Definition item_data (items : list (option Z)) (i : Z) : option Z :=
  if i <? 0 then None
  else match items !! Z.to_nat i with
       | Some data => data
       | None => None
       end.

(** [for i in range(count): if itemData(i) == x: ...; break]: the first
    index whose data equals [x]. *)
Fixpoint first_index (items : list (option Z)) (x : option Z) : option nat :=
  match items with
  | [] => None
  | data :: rest =>
      if bool_decide (data = x) then Some 0%nat
      else S <$> first_index rest x
  end.

(** One row of [self.source_widgets]: the tuple (container, combo box),
    compared by the identity of its widgets. *)
Record Row := {
  row_widget : positive;
  row_items : list (option Z);
  row_index : Z
}.

Definition row_data (r : Row) : option Z :=
  item_data (row_items r) (row_index r).

(** The [tooltip] messages of the form. *)
Inductive Tip :=
  | tip_cleared_target_changed
  | tip_cleared_target_unselected
  | tip_select_target_first
  | tip_no_other_note_types.

Record Form := {
  form_config : gmap string CfgVal;       (* self.config *)
  all_models : list NotetypeDict;         (* self.all_models *)
  form_target_model_id : option Z;        (* self.target_model_id *)
  target_items : list (option Z);         (* self.target_combo *)
  target_index : Z;
  rows : list Row;                        (* self.source_widgets *)
  add_button_enabled : bool;
  next_widget : positive;                 (* the next widget to be created *)
  deleted : list positive;                (* deleteLater() *)
  tips : list Tip
}.

Definition set_form_config (c : gmap string CfgVal) (f : Form) : Form :=
  {| form_config := c; all_models := all_models f;
     form_target_model_id := form_target_model_id f;
     target_items := target_items f; target_index := target_index f;
     rows := rows f; add_button_enabled := add_button_enabled f;
     next_widget := next_widget f; deleted := deleted f; tips := tips f |}.

Definition set_target_model_id (t : option Z) (f : Form) : Form :=
  {| form_config := form_config f; all_models := all_models f;
     form_target_model_id := t;
     target_items := target_items f; target_index := target_index f;
     rows := rows f; add_button_enabled := add_button_enabled f;
     next_widget := next_widget f; deleted := deleted f; tips := tips f |}.

Definition set_target_index (i : Z) (f : Form) : Form :=
  {| form_config := form_config f; all_models := all_models f;
     form_target_model_id := form_target_model_id f;
     target_items := target_items f; target_index := i;
     rows := rows f; add_button_enabled := add_button_enabled f;
     next_widget := next_widget f; deleted := deleted f; tips := tips f |}.

Definition set_rows (rs : list Row) (f : Form) : Form :=
  {| form_config := form_config f; all_models := all_models f;
     form_target_model_id := form_target_model_id f;
     target_items := target_items f; target_index := target_index f;
     rows := rs; add_button_enabled := add_button_enabled f;
     next_widget := next_widget f; deleted := deleted f; tips := tips f |}.

Definition set_add_button (b : bool) (f : Form) : Form :=
  {| form_config := form_config f; all_models := all_models f;
     form_target_model_id := form_target_model_id f;
     target_items := target_items f; target_index := target_index f;
     rows := rows f; add_button_enabled := b;
     next_widget := next_widget f; deleted := deleted f; tips := tips f |}.

Definition fresh_widget (f : Form) : Form :=
  {| form_config := form_config f; all_models := all_models f;
     form_target_model_id := form_target_model_id f;
     target_items := target_items f; target_index := target_index f;
     rows := rows f; add_button_enabled := add_button_enabled f;
     next_widget := Pos.succ (next_widget f); deleted := deleted f;
     tips := tips f |}.

Definition deleteLater (w : positive) (f : Form) : Form :=
  {| form_config := form_config f; all_models := all_models f;
     form_target_model_id := form_target_model_id f;
     target_items := target_items f; target_index := target_index f;
     rows := rows f; add_button_enabled := add_button_enabled f;
     next_widget := next_widget f; deleted := deleted f ++ [w];
     tips := tips f |}.

Definition tooltip (t : Tip) (f : Form) : Form :=
  {| form_config := form_config f; all_models := all_models f;
     form_target_model_id := form_target_model_id f;
     target_items := target_items f; target_index := target_index f;
     rows := rows f; add_button_enabled := add_button_enabled f;
     next_widget := next_widget f; deleted := deleted f;
     tips := tips f ++ [t] |}.

(** [get_available_source_models] *)
Definition get_available_source_models (f : Form) : list NotetypeDict :=
  match form_target_model_id f with
  | None => []
  | Some target => List.filter (fun m => negb (nt_id m =? target)) (all_models f)
  end.

(** [remove_source_ui]; [list.remove] takes out the first equal tuple. *)
Fixpoint remove_first (w : positive) (rs : list Row) : list Row :=
  match rs with
  | [] => []
  | r :: rest =>
      if bool_decide (row_widget r = w) then rest
      else r :: remove_first w rest
  end.

Definition remove_source_ui (w : positive) (f : Form) : Form :=
  if bool_decide (w ∈ row_widget <$> rows f)
  then deleteLater w (set_rows (remove_first w (rows f)) f)
  else f.

(** [clear_all_sources]: the [while] loop pops the last row until none is
    left; [pending] is the list the loop still has to go through, last row
    first. *)
Fixpoint clear_loop (pending : list Row) (f : Form) : Form :=
  match pending with
  | [] => f
  | r :: rest =>
      clear_loop rest
        (deleteLater (row_widget r) (set_rows (reverse rest) f))
  end.

Definition clear_all_sources (f : Form) : Form :=
  clear_loop (reverse (rows f)) f.

(** [target_model_selected(index)], the slot of the target combo box's
    [currentIndexChanged]; [user_agrees] is the answer [askUser] gives
    when it is asked. *)
Definition target_model_selected (user_agrees : bool) (index : Z) (f : Form)
    : Form :=
  let selected_id := item_data (target_items f) index in
  if bool_decide (selected_id = form_target_model_id f) then f
  else if truthy selected_id && negb (bool_decide (rows f = []))
          && negb user_agrees
  then
    (* signals blocked: the slot does not run again *)
    let current_index :=
      match first_index (target_items f) (form_target_model_id f) with
      | Some i => Z.of_nat i
      | None => -1
      end in
    set_target_index current_index f
  else
    let previous_target_id := form_target_model_id f in
    let f := set_target_model_id selected_id f in
    if truthy (form_target_model_id f) then
      let f := set_add_button true f in
      match previous_target_id with
      | Some _ =>
          if negb (bool_decide (previous_target_id = form_target_model_id f))
          then tooltip tip_cleared_target_changed (clear_all_sources f)
          else f
      | None => f
      end
    else
      let f := set_add_button false f in
      if negb (bool_decide (rows f = []))
      then tooltip tip_cleared_target_unselected (clear_all_sources f)
      else f.

(** [setCurrentIndex(i)] on the target combo box with the slot connected:
    the signal is emitted when the index changes. *)
Definition select_target (user_agrees : bool) (i : Z) (f : Form) : Form :=
  if i =? target_index f then f
  else target_model_selected user_agrees i (set_target_index i f).

Definition set_row_index (w : positive) (i : Z) (r : Row) : Row :=
  if bool_decide (row_widget r = w)
  then {| row_widget := row_widget r; row_items := row_items r; row_index := i |}
  else r.

(** [setCurrentIndex(i)] on the combo box of the row [w]; no slot is
    connected to it. *)
Definition select_source (w : positive) (i : Z) (f : Form) : Form :=
  set_rows (set_row_index w i <$> rows f) f.

(** [add_source_ui(source_id_to_select)]; the button's [clicked] passes
    False, which is as falsy as the default None. *)
Definition add_source_ui (source_id_to_select : option Z) (f : Form) : Form :=
  match form_target_model_id f with
  | None => tooltip tip_select_target_first f
  | Some _ =>
      let available_sources := get_available_source_models f in
      match available_sources with
      | [] => tooltip tip_no_other_note_types f
      | _ :: _ =>
          let w := next_widget f in
          let source_combo :=
            {| row_widget := w;
               row_items := None :: ((fun m => Some (nt_id m)) <$> available_sources);
               row_index := -1 |} in
          let f := fresh_widget f in
          let f := set_rows (rows f ++ [source_combo]) f in
          if truthy source_id_to_select then
            match first_index (row_items source_combo) source_id_to_select with
            | Some i => select_source w (Z.of_nat i) f
            | None => remove_source_ui w f
            end
          else f
      end
  end.

(** Truth value of a configuration value. *)
Definition cfg_truthy (v : option CfgVal) : bool :=
  match v with
  | None => false
  | Some CNull => false
  | Some (CInt z) => negb (z =? 0)
  | Some (CList l) => negb (bool_decide (l = []))
  end.

(** [itemData(i) == v] for a configuration value [v]. *)
Definition cfg_as_data (v : option CfgVal) : option (option Z) :=
  match v with
  | Some (CInt z) => Some (Some z)
  | Some CNull => Some None
  | None => Some None
  | Some (CList _) => None
  end.

(** [load_config]: the form after the call, and the argument of the
    [_load_sources] the timer will run. *)
Definition load_config (user_agrees : bool) (f : Form) : Form * CfgVal :=
  let loaded_target_id := form_config f !! CONFIG_KEY_TARGET_MODEL in
  let loaded_source_ids :=
    match form_config f !! CONFIG_KEY_SOURCE_MODELS with
    | Some v => v
    | None => CList []
    end in
  let f :=
    if cfg_truthy loaded_target_id then
      match cfg_as_data loaded_target_id with
      | Some data =>
          match first_index (target_items f) data with
          | Some i => select_target user_agrees (Z.of_nat i) f
          | None =>
              set_form_config (<[CONFIG_KEY_TARGET_MODEL := CNull]> (form_config f)) f
          end
      | None =>
          set_form_config (<[CONFIG_KEY_TARGET_MODEL := CNull]> (form_config f)) f
      end
    else f in
  (f, loaded_source_ids).

(** The loop of [_load_sources] over a list of ids; [col] is [mw.col]. *)
Fixpoint load_source_rows (col : Collection) (source_ids : list Z) (f : Form)
    : Form :=
  match source_ids with
  | [] => f
  | source_id :: rest =>
      if bool_decide (Some source_id = form_target_model_id f)
      then load_source_rows col rest f
      else match models_get col source_id with
           | Some _ =>
               load_source_rows col rest (add_source_ui (Some source_id) f)
           | None => load_source_rows col rest f
           end
  end.

(** [_load_sources(source_ids)] *)
Definition _load_sources (col : Collection) (source_ids : CfgVal) (f : Form)
    : Form :=
  if negb (truthy (form_target_model_id f)) then
    if cfg_truthy (form_config f !! CONFIG_KEY_SOURCE_MODELS)
    then set_form_config (<[CONFIG_KEY_SOURCE_MODELS := CList []]> (form_config f)) f
    else f
  else
    let f := clear_all_sources f in
    match source_ids with
    | CList ids => load_source_rows col ids f
    | _ => set_form_config (<[CONFIG_KEY_SOURCE_MODELS := CList []]> (form_config f)) f
    end.

(** Comparison of two [str] by code points, as [sort] compares the names. *)
Fixpoint pystr_ltb (a b : pystr) : bool :=
  match a, b with
  | _, [] => false
  | [], _ :: _ => true
  | x :: a', y :: b' =>
      if (x <? y)%N then true else if (y <? x)%N then false else pystr_ltb a' b'
  end.

(** [list.sort(key=lambda m: m['name'])] is stable: a model goes behind
    those already placed whose name is not greater. *)
Fixpoint insert_by_name (m : NotetypeDict) (sorted : list NotetypeDict)
    : list NotetypeDict :=
  match sorted with
  | [] => [m]
  | m' :: rest =>
      if pystr_ltb (nt_name m) (nt_name m') then m :: m' :: rest
      else m' :: insert_by_name m rest
  end.

Definition sort_by_name (models : list NotetypeDict) : list NotetypeDict :=
  foldl (fun sorted m => insert_by_name m sorted) [] models.

(** [__init__] up to the call of [load_config]: [stored] is what
    [getConfig] returns, [col] is [mw.col]. *)
Definition new_form (stored : option (gmap string CfgVal)) (col : Collection)
    : Form :=
  let models := sort_by_name (col_models col) in
  {| form_config := match stored with Some c => c | None => ∅ end;
     all_models := models;
     form_target_model_id := None;
     target_items := None :: ((fun m => Some (nt_id m)) <$> models);
     target_index := -1;
     rows := [];
     add_button_enabled := false;
     next_widget := 1%positive;
     deleted := [];
     tips := [] |}.

(** Opening the dialog: [__init__], and the timer that runs
    [_load_sources]. *)
Definition open_dialog (user_agrees : bool)
    (stored : option (gmap string CfgVal)) (col : Collection) : Form :=
  let '(f, pending) := load_config user_agrees (new_form stored col) in
  _load_sources col pending f.

(** The form as [save_config] reads it. *)
Definition dialog_of (f : Form) (stored : gmap string CfgVal) (ok : bool)
    : ConfigDialog :=
  {| config := form_config f;
     target_combo := item_data (target_items f) (target_index f);
     source_widgets := row_data <$> rows f;
     accepted := false; stored_config := stored; write_ok := ok;
     shown := [] |}.

(** ** Vocabulary of the statements *)

(** A run of characters of one class followed by a suffix the continuation
    accepts. *)
Definition run_of (p : N -> bool) (k : pystr -> bool) (s : pystr) : Prop :=
  exists xs rest,
    s = xs ++ rest /\ Forall (fun c => p c = true) xs /\ k rest = true.

(** An occurrence of cloze markup in a string: "{{c", one or more digits,
    "::", any text, "}}". *)
Definition cloze_markup (unicode_Nd : N -> bool) (s : pystr) : Prop :=
  exists pre digits body post,
    s = pre ++ lit "{{c" ++ digits ++ lit "::" ++ body ++ lit "}}" ++ post
    /\ digits <> []
    /\ Forall (fun c => unicode_Nd c = true) digits.

(** The note with its non-string fields dropped. *)
Definition strings_only (n : Note) : Note :=
  set_fields (List.filter isinstance_str (note_fields n)) n.

(** The conditions on the dialog under which a configuration may be
    saved: a target is selected, every source row has a selection, none of
    them is the target, none occurs twice, and there is at least one. *)
Definition selection_valid (d : ConfigDialog) : Prop :=
  exists t,
    target_combo d = Some t /\
    (forall row, row ∈ source_widgets d -> exists id, row = Some id /\ id <> t) /\
    NoDup (source_widgets d) /\
    source_widgets d <> [].

(** A configuration with a non-empty list of pairwise distinct source ids,
    none of which is the target id. *)
Definition well_formed_config (c : gmap string CfgVal) : Prop :=
  exists t l,
    c !! CONFIG_KEY_TARGET_MODEL = Some (CInt t) /\
    c !! CONFIG_KEY_SOURCE_MODELS = Some (CList l) /\
    l <> [] /\ NoDup l /\ t ∉ l.

(** What a wrapper of [_onCloze] makes of the wrapped method's outcome. *)
Definition passed_on {R : Type} (result : res R) : res (option R) :=
  match result with
  | Ret r => Ret (Some r)
  | Raise e => Raise e
  end.

(** The state of the module [re] before any hook, and while hooked. *)
Definition re_clean : ReModule :=
  {| re_search := host_search; _oldReSearch := None;
     _re_search_hooked_by_auto_cloze := false |}.

Definition re_hooked : ReModule :=
  {| re_search := newSearch; _oldReSearch := Some host_search;
     _re_search_hooked_by_auto_cloze := true |}.

(** A sequence of calls of the two functions: [true] is
    [hook_re_search_if_needed], [false] is [unhook_re_search_if_hooked]. *)
Definition run_hooks (calls : list bool) (st : ReModule) : ReModule :=
  foldl (fun st hook => if hook : bool then hook_re_search_if_needed st
                        else unhook_re_search_if_hooked st) st calls.

(** What the form keeps true between two events: the target combo box
    shows [self.target_model_id]; there are rows only while a target is
    set; no row offers the target among its entries; the rows are distinct
    widgets, all created before the next one. *)
Definition form_ok (f : Form) : Prop :=
  item_data (target_items f) (target_index f) = form_target_model_id f /\
  (form_target_model_id f = None -> rows f = []) /\
  (forall r t, r ∈ rows f -> form_target_model_id f = Some t ->
               Some t ∉ row_items r) /\
  NoDup (row_widget <$> rows f) /\
  (forall r, r ∈ rows f -> (row_widget r < next_widget f)%positive).

(** What the user and the dialog's own code can do to the form. *)
Inductive Event :=
  | ev_select_target (user_agrees : bool) (i : Z)
  | ev_add_source
  | ev_remove_source (w : positive)
  | ev_select_source (w : positive) (i : Z).

Definition handle (f : Form) (e : Event) : Form :=
  match e with
  | ev_select_target user_agrees i => select_target user_agrees i f
  | ev_add_source => add_source_ui None f
  | ev_remove_source w => remove_source_ui w f
  | ev_select_source w i => select_source w i f
  end.



(** [a]'s name is not greater than [b]'s. *)
Definition name_le (a b : NotetypeDict) : Prop :=
  pystr_ltb (nt_name b) (nt_name a) = false.

(** ** Concrete data used by the examples below *)

(** The ASCII digits, a sub-table of every Unicode decimal-digit table. *)
Definition ascii_digit (c : N) : bool := (48 <=? c)%N && (c <=? 57)%N.

Definition basic : NotetypeDict :=
  {| nt_id := 10; nt_name := lit "Basic";
     nt_flds := [lit "Front"; lit "Back"; lit "Extra"] |}.

Definition cloze : NotetypeDict :=
  {| nt_id := 20; nt_name := lit "Cloze";
     nt_flds := [lit "Text"; lit "Back Extra"] |}.

Definition sample_col : Collection :=
  {| col_models := [basic; cloze]; col_usn := -1 |}.

Definition sample_note (c : Collection) (mid : Z) (fs : list PyVal) : Note :=
  {| note_col := c; note_id := 1700000000000; note_guid := lit "g";
     note_mid := mid; note_fields := fs; note_tags := [];
     note_mod := 5; note_usn := 7 |}.

Definition sample_world (srcs : list Z) (tgt : option Z)
    (c : option Collection) (n : Note) : World :=
  {| source_model_ids := srcs; target_model_id := tgt;
     ANKI_VERSION_TUPLE := [2; 1; 54];
     heap := {[ 1%positive := n ]}; mw_col := c; clock := 1000;
     db_ok := true; flushed := [] |}.

(** A Basic note with cloze markup in its first field, and the state in
    which Basic is a source type and Cloze the target. *)
Definition demo_note : Note :=
  sample_note sample_col 10
    [PStr (lit "The {{c1::mitochondrion}} is the powerhouse");
     PStr (lit "cell biology"); PStr (lit "p. 12")].

Definition demo_world : World :=
  sample_world [10] (Some 20) (Some sample_col) demo_note.

(** A Basic note without markup. *)
Definition plain_note : Note :=
  sample_note sample_col 10 [PStr (lit "Capital of France"); PStr (lit "Paris")].

Definition plain_world : World :=
  sample_world [10] (Some 20) (Some sample_col) plain_note.

(** A note that already is of the target type. *)
Definition cloze_note : Note :=
  sample_note sample_col 20 [PStr (lit "{{c1::Paris}}"); PStr (lit "")].

Definition cloze_world : World :=
  sample_world [10] (Some 20) (Some sample_col) cloze_note.

(** A note whose fields hold no string. *)
Definition odd_note : Note := sample_note sample_col 10 [PInt 3; PNone].





Definition demo_editor : option Editor :=
  Some {| ed_note := Some demo_note; ed_web := Some [] |}.

Definition fresh_class : NoteClass :=
  {| fields_check := Some HostMethod;
     _fields_check_original_auto_cloze := None |}.

Definition dialog_with (target : option Z) (rows : list (option Z))
    : ConfigDialog :=
  {| config := ∅; target_combo := target; source_widgets := rows;
     accepted := false; stored_config := ∅; write_ok := true; shown := [] |}.

(** A stored configuration: target 20, sources as given. *)
Definition stored_with (target : Z) (sources : list Z) : gmap string CfgVal :=
  <[CONFIG_KEY_SOURCE_MODELS := CList sources]>
    (<[CONFIG_KEY_TARGET_MODEL := CInt target]> ∅).

(** The form after the target Cloze was picked and a row was added. *)
Definition demo_form : Form :=
  add_source_ui None (select_target true 2 (new_form None sample_col)).

(** An editor of an old host on a source-typed note in add mode, and a
    wrapped method that does nothing. *)
Definition legacy_basic : LegacyNotetype :=
  {| lt_id := 10; lt_type := Some 0;
     lt_tmpls := [{| qfmt := lit "{{Front}}"; afmt := lit "{{Back}}" |}] |}.

Definition legacy_editor : LegacyEditor :=
  {| le_note_type := Some legacy_basic; le_addMode := Some true;
     le_re := re_clean |}.

Definition idle_onCloze : OnCloze unit := fun self => (Ret tt, self).

(** An interpreter's [re.search] that finds nothing. *)
Definition no_match : pystr -> pystr -> Z -> res bool := fun _ _ _ => Ret false.

(** * Properties *)

(** ** The regular-expression engine *)

Section EngineFacts.
Variable unicode_Nd : N -> bool.
Variable dotall : bool.

Abbreviation accepts := (Re.accepts unicode_Nd dotall).
Abbreviation match_here := (Re.match_here unicode_Nd dotall).
Abbreviation run_then a := (run_of (accepts a)).

Lemma run_then_nil a k s : k s = true -> run_then a k s.
Proof. intros H. exists [], s. auto. Qed.

Lemma run_then_cons a k c s :
  accepts a c = true -> run_then a k s -> run_then a k (c :: s).
Proof.
  intros Hc (xs & rest & -> & Hxs & Hk).
  exists (c :: xs), rest. auto.
Qed.

Lemma run_then_inv a k s :
  run_then a k s ->
  k s = true \/
  exists c s', s = c :: s' /\ accepts a c = true /\ run_then a k s'.
Proof.
  intros (xs & rest & -> & Hxs & Hk).
  destruct xs as [|c xs]; [left; exact Hk|].
  right. inversion Hxs; subst. exists c, (xs ++ rest).
  split; [reflexivity|]. split; [assumption|]. exists xs, rest. auto.
Qed.

Lemma greedy_spec a k s :
  Re.greedy unicode_Nd dotall a k s = true <-> run_then a k s.
Proof.
  induction s as [|c s IH]; simpl.
  - split.
    + apply run_then_nil.
    + intros H. apply run_then_inv in H as [H|(c & s' & E & _)];
        [exact H | discriminate E].
  - rewrite orb_true_iff, andb_true_iff, IH. split.
    + intros [[Hc H]|H]; [apply run_then_cons | apply run_then_nil]; auto.
    + intros H. apply run_then_inv in H as [H|(c' & s' & E & Hc & H)]; auto.
      injection E as <- <-. auto.
Qed.

Lemma lazy_spec a k s :
  Re.lazy unicode_Nd dotall a k s = true <-> run_then a k s.
Proof.
  induction s as [|c s IH]; simpl.
  - rewrite orb_false_r. split.
    + apply run_then_nil.
    + intros H. apply run_then_inv in H as [H|(c & s' & E & _)];
        [exact H | discriminate E].
  - rewrite orb_true_iff, andb_true_iff, IH. split.
    + intros [H|[Hc H]]; [apply run_then_nil | apply run_then_cons]; auto.
    + intros H. apply run_then_inv in H as [H|(c' & s' & E & Hc & H)]; auto.
      injection E as <- <-. auto.
Qed.

Lemma match_chr c r s :
  match_here ((Re.Chr c, Re.Once) :: r) s = true <->
  exists s', s = c :: s' /\ match_here r s' = true.
Proof.
  destruct s as [|c' s']; simpl.
  - split; [discriminate | intros (? & E & _); discriminate E].
  - rewrite andb_true_iff, N.eqb_eq. split.
    + intros [-> H]. eauto.
    + intros (? & E & H). injection E as -> ->. auto.
Qed.

Lemma match_plus a r s :
  match_here ((a, Re.Plus) :: r) s = true <->
  exists c s', s = c :: s' /\ accepts a c = true /\ run_then a (match_here r) s'.
Proof.
  destruct s as [|c' s']; simpl.
  - split; [discriminate | intros (? & ? & E & _); discriminate E].
  - rewrite andb_true_iff, greedy_spec. split.
    + intros [Hc H]. eauto.
    + intros (? & ? & E & Hc & H). injection E as -> ->. auto.
Qed.

Lemma match_lazy_star a r s :
  match_here ((a, Re.LazyStar) :: r) s = true <-> run_then a (match_here r) s.
Proof. simpl. apply lazy_spec. Qed.

Lemma search_str_spec r s :
  Re.search_str unicode_Nd dotall r s = true <->
  exists pre rest, s = pre ++ rest /\ match_here r rest = true.
Proof.
  induction s as [|c s IH]; simpl.
  - rewrite orb_false_r. split.
    + intros H. exists [], []. auto.
    + intros (pre & rest & E & H). symmetry in E.
      apply app_eq_nil in E as [_ ->]. exact H.
  - rewrite orb_true_iff, IH. split.
    + intros [H|(pre & rest & -> & H)].
      * exists [], (c :: s). auto.
      * exists (c :: pre), rest. auto.
    + intros (pre & rest & E & H). destruct pre as [|c' pre]; simpl in E.
      * left. subst rest. exact H.
      * right. injection E as -> ->. eauto.
Qed.

End EngineFacts.

(** ** Cloze detection *)

Section ClozeDetection.
Variable unicode_Nd : N -> bool.

Abbreviation match_cloze := (Re.match_here unicode_Nd true).

Lemma any_run (xs : pystr) :
  Forall (fun c => Re.accepts unicode_Nd true Re.Dot c = true) xs.
Proof. induction xs; constructor; auto. Qed.

(** CLOZE_RE matches at the start of [s] exactly when [s] begins with an
    occurrence of the markup. *)
Lemma match_cloze_spec s :
  match_cloze CLOZE_RE s = true <->
  exists digits body post,
    s = lit "{{c" ++ digits ++ lit "::" ++ body ++ lit "}}" ++ post
    /\ digits <> []
    /\ Forall (fun c => unicode_Nd c = true) digits.
Proof.
  unfold CLOZE_RE. split.
  - intros H.
    apply match_chr in H as (s1 & -> & H).
    apply match_chr in H as (s2 & -> & H).
    apply match_chr in H as (s3 & -> & H).
    apply match_plus in H as (d & s4 & -> & Hd & (ds & s5 & -> & Hds & H)).
    apply match_chr in H as (s6 & -> & H).
    apply match_chr in H as (s7 & -> & H).
    apply match_lazy_star in H as (body & s8 & -> & _ & H).
    apply match_chr in H as (s9 & -> & H).
    apply match_chr in H as (post & -> & _).
    exists (d :: ds), body, post. split; [|split].
    + reflexivity.
    + discriminate.
    + constructor; assumption.
  - intros (digits & body & post & -> & Hne & Hds).
    destruct digits as [|d ds]; [congruence|]. inversion Hds; subst.
    apply match_chr. eexists; split; [reflexivity|].
    apply match_chr. eexists; split; [reflexivity|].
    apply match_chr. eexists; split; [reflexivity|].
    apply match_plus. exists d, (ds ++ lit "::" ++ body ++ lit "}}" ++ post).
    split; [reflexivity|]. split; [assumption|].
    exists ds, (lit "::" ++ body ++ lit "}}" ++ post).
    split; [reflexivity|]. split; [assumption|].
    apply match_chr. eexists; split; [reflexivity|].
    apply match_chr. eexists; split; [reflexivity|].
    apply match_lazy_star. exists body, (lit "}}" ++ post).
    split; [reflexivity|]. split; [apply any_run|].
    apply match_chr. eexists; split; [reflexivity|].
    apply match_chr. eexists; split; [reflexivity|].
    reflexivity.
Qed.

Lemma search_cloze_spec s :
  Re.search_str unicode_Nd true CLOZE_RE s = true <-> cloze_markup unicode_Nd s.
Proof.
  rewrite search_str_spec. split.
  - intros (pre & rest & -> & H). apply match_cloze_spec in H
      as (digits & body & post & -> & Hne & Hds).
    exists pre, digits, body, post. auto.
  - intros (pre & digits & body & post & -> & Hne & Hds).
    eexists pre, _. split; [reflexivity|].
    apply match_cloze_spec. exists digits, body, post. auto.
Qed.

(** The loop never raises: the [isinstance] test keeps every non-string
    away from [re.search]. *)
Lemma scan_fields_returns fields :
  exists b, scan_fields unicode_Nd fields = Ret b.
Proof.
  induction fields as [|v fields IH]; simpl; [eauto|].
  destruct v; simpl; auto.
  destruct (Re.search_str _ _ _ _); eauto.
Qed.

Lemma scan_fields_true fields :
  scan_fields unicode_Nd fields = Ret true <->
  exists s, PStr s ∈ fields /\ cloze_markup unicode_Nd s.
Proof.
  induction fields as [|v fields IH]; simpl.
  - split; [discriminate|]. intros (s & H & _). inversion H.
  - assert (Hskip : isinstance_str v = false ->
      (scan_fields unicode_Nd fields = Ret true <->
       exists s, PStr s ∈ v :: fields /\ cloze_markup unicode_Nd s)).
    { intros Hv. rewrite IH. split.
      - intros (s & H & Hs). exists s. split; [right|]; auto.
      - intros (s & H & Hs). exists s. split; [|exact Hs].
        apply elem_of_cons in H as [E|H]; [|exact H].
        subst v. discriminate Hv. }
    destruct v as [s| | |]; simpl; try (apply Hskip; reflexivity).
    destruct (Re.search_str unicode_Nd true CLOZE_RE s) eqn:E; simpl.
    + split; [|reflexivity]. intros _. exists s. split; [left|].
      apply search_cloze_spec. exact E.
    + rewrite IH. split.
      * intros (s' & H & Hs). exists s'. split; [right|]; auto.
      * intros (s' & H & Hs). exists s'. split; [|exact Hs].
        apply elem_of_cons in H as [E'|H]; [|exact H].
        injection E' as ->. apply search_cloze_spec in Hs. congruence.
Qed.

Lemma contains_cloze_returns note :
  exists b, contains_cloze unicode_Nd note = Ret b.
Proof.
  destruct note as [n|]; simpl; [|eauto].
  destruct (note_fields n) as [|v fs]; [eauto|].
  destruct (scan_fields_returns (v :: fs)) as [b ->]. simpl. eauto.
Qed.


Lemma scan_fields_strings_only fields :
  scan_fields unicode_Nd (List.filter isinstance_str fields)
  = scan_fields unicode_Nd fields.
Proof.
  induction fields as [|v fields IH]; simpl; [reflexivity|].
  destruct v; simpl; try exact IH.
  destruct (Re.search_str _ _ _ _); [reflexivity | exact IH].
Qed.

Lemma scan_fields_no_string fields :
  Forall (fun v => isinstance_str v = false) fields ->
  scan_fields unicode_Nd fields = Ret false.
Proof.
  induction 1 as [|v fields Hv _ IH]; simpl; [reflexivity|].
  rewrite Hv. exact IH.
Qed.

(** The guard on an empty field list agrees with the loop. *)
Lemma contains_cloze_scan (n : Note) :
  contains_cloze unicode_Nd (Some n)
  = try_except (scan_fields unicode_Nd (note_fields n)) (fun _ => Ret false).
Proof. simpl. destruct (note_fields n); reflexivity. Qed.

(** C9: [contains_cloze] returns a truth value for every argument -- None,
    a note without fields, fields that are not strings -- and never raises;
    non-string fields do not take part in the detection, and without a
    string field the answer is False. *)
Theorem contains_cloze_total (note : option Note) :
  (exists b, contains_cloze unicode_Nd note = Ret b) /\
  contains_cloze unicode_Nd (strings_only <$> note)
    = contains_cloze unicode_Nd note /\
  ((forall n, note = Some n ->
      Forall (fun v => isinstance_str v = false) (note_fields n)) ->
   contains_cloze unicode_Nd note = Ret false).
Proof.
  split; [apply contains_cloze_returns|]. split.
  - destruct note as [n|]; [|reflexivity].
    change (strings_only <$> Some n) with (Some (strings_only n)).
    rewrite !contains_cloze_scan. simpl.
    rewrite scan_fields_strings_only. reflexivity.
  - intros H. destruct note as [n|]; simpl; [|reflexivity].
    rewrite (scan_fields_no_string _ (H n eq_refl)).
    destruct (note_fields n); reflexivity.
Qed.

End ClozeDetection.

(** ** The field-copy loop *)

Lemma copy_loop_lookup (k : nat) : forall (i : nat) (old new : list PyVal),
  (i + k <= length old)%nat -> (i + k <= length new)%nat ->
  exists r, copy_loop (seq i k) old new = Ret r /\
    length r = length new /\
    forall j, r !! j = if decide (i <= j < i + k)%nat then old !! j else new !! j.
Proof.
  induction k as [|k IH]; intros i old new Ho Hn; simpl.
  - exists new. split; [reflexivity|]. split; [reflexivity|].
    intros j. destruct (decide _) as [H|H]; [lia | reflexivity].
  - unfold py_getitem, py_setitem.
    destruct (lookup_lt_is_Some_2 old i) as [v Hv]; [lia|].
    rewrite Hv. simpl. destruct (decide (i < length new)%nat) as [Hi|Hi]; [|lia].
    simpl.
    destruct (IH (S i) old (<[i:=v]> new)) as (r & Hr & Hlen & Hlook).
    { lia. } { rewrite length_insert. lia. }
    exists r. split; [exact Hr|]. split.
    { rewrite Hlen. apply length_insert. }
    intros j. rewrite Hlook.
    destruct (decide (S i <= j < S i + k)%nat) as [H1|H1];
      destruct (decide (i <= j < i + S k)%nat) as [H2|H2]; try reflexivity;
      try lia.
    + assert (j = i) as -> by lia.
      rewrite list_lookup_insert_eq by lia. symmetry. exact Hv.
    + apply list_lookup_insert_ne. lia.
Qed.

(** The loop of the source never leaves the two lists: it returns a list of
    the length of [new_fields], the first [copy_len] entries taken from
    [old_fields], the others left as they were. *)
Lemma copy_loop_fields (old : list PyVal) (count : nat) :
  exists r,
    copy_loop (seq 0 (Nat.min (length old) count)) old
      (replicate count (PStr (lit ""))) = Ret r /\
    length r = count /\
    (forall i, (i < Nat.min (length old) count)%nat -> r !! i = old !! i) /\
    (forall i, (Nat.min (length old) count <= i < count)%nat ->
       r !! i = Some (PStr (lit ""))).
Proof.
  destruct (copy_loop_lookup (Nat.min (length old) count) 0 old
              (replicate count (PStr (lit "")))) as (r & Hr & Hlen & Hlook).
  { lia. } { rewrite length_replicate. lia. }
  exists r. split; [exact Hr|]. split.
  { rewrite Hlen. apply length_replicate. }
  split; intros i Hi; rewrite Hlook.
  - destruct (decide _) as [H|H]; [reflexivity | lia].
  - destruct (decide _) as [H|H]; [lia|].
    apply lookup_replicate_2. lia.
Qed.

(** ** The conversion hook *)

Section Hook.
Variable unicode_Nd : N -> bool.

Abbreviation on_add := (on_add_note_change_type unicode_Nd).

Lemma assign_at (f : Note -> Note) (note : loc) (w : World) (n : Note) :
  heap w !! note = Some n ->
  heap (assign f note w) = <[note := f n]> (heap w).
Proof.
  intros H. simpl. apply map_eq. intros l.
  rewrite lookup_alter, lookup_insert.
  destruct (decide (note = l)) as [->|Hne]; [|reflexivity].
  rewrite H. reflexivity.
Qed.

Lemma assign_lookup (f : Note -> Note) (note : loc) (w : World) (n : Note) :
  heap w !! note = Some n -> heap (assign f note w) !! note = Some (f n).
Proof. intros H. rewrite (assign_at _ _ _ _ H). apply lookup_insert_eq. Qed.

(** The note a successful run of the [try] block leaves behind. *)
Lemma convert_spec (note : loc) (n : Note) (tid : Z) (target : NotetypeDict)
    (c : Collection) (w : World) :
  heap w !! note = Some n -> mw_col w = Some c ->
  exists new_fields,
    copy_loop (seq 0 (Nat.min (length (note_fields n)) (length (nt_flds target))))
      (note_fields n) (replicate (length (nt_flds target)) (PStr (lit "")))
      = Ret new_fields /\
    let n' := set_usn (col_usn c) (set_mod (clock w)
                (set_fields new_fields (set_mid tid n))) in
    let w' := with_flushed (flushed w ++ [(note, n')])
                (with_heap (<[note := n']> (heap w)) w) in
    convert note n tid target w
      = (if db_ok w then Ret tt else Raise HostError, w').
Proof.
  intros Hn Hc.
  destruct (copy_loop_fields (note_fields n) (length (nt_flds target)))
    as (r & Hr & _).
  exists r. split; [exact Hr|]. unfold convert. rewrite Hr.
  cbv zeta.
  set (w1 := assign (set_mid tid) note w).
  set (w2 := assign (set_fields r) note w1).
  set (w3 := assign (set_mod (clock w2)) note w2).
  assert (H1 : heap w1 !! note = Some (set_mid tid n))
    by (apply assign_lookup; exact Hn).
  assert (H2 : heap w2 !! note = Some (set_fields r (set_mid tid n)))
    by (apply assign_lookup; exact H1).
  assert (H3 : heap w3 !! note
               = Some (set_mod (clock w) (set_fields r (set_mid tid n))))
    by (apply (assign_lookup _ _ _ _ H2)).
  change (mw_col w3) with (mw_col w). rewrite Hc. cbv beta iota.
  set (w4 := assign (set_usn (col_usn c)) note w3).
  assert (H4 : heap w4 = <[note := set_usn (col_usn c) (set_mod (clock w)
                  (set_fields r (set_mid tid n)))]> (heap w)).
  { unfold w4. rewrite (assign_at _ _ _ _ H3).
    unfold w3. rewrite (assign_at _ _ _ _ H2).
    unfold w2. rewrite (assign_at _ _ _ _ H1).
    unfold w1. rewrite (assign_at _ _ _ _ Hn).
    rewrite !insert_insert_eq. reflexivity. }
  unfold note_flush. rewrite H4, lookup_insert_eq.
  change (db_ok w4) with (db_ok w). change (flushed w4) with (flushed w).
  unfold with_flushed at 1 2. rewrite H4.
  destruct (db_ok w); reflexivity.
Qed.

(** Every run of the hook either leaves the whole state as it was, or is a
    conversion of a source note with cloze markup to an existing target. *)
Lemma on_add_cases (note : loc) (w : World) :
  snd (on_add note w) = w \/
  exists n nt tid c target new_fields,
    heap w !! note = Some n /\ note_type n = Some nt /\
    nt_id nt ∈ source_model_ids w /\
    contains_cloze unicode_Nd (Some n) = Ret true /\
    target_model_id w = Some tid /\ mw_col w = Some c /\
    models_get c tid = Some target /\ note_mid n <> tid /\
    copy_loop (seq 0 (Nat.min (length (note_fields n)) (length (nt_flds target))))
      (note_fields n) (replicate (length (nt_flds target)) (PStr (lit "")))
      = Ret new_fields /\
    let n' := set_usn (col_usn c) (set_mod (clock w)
                (set_fields new_fields (set_mid tid n))) in
    on_add note w
      = (Ret tt, with_flushed (flushed w ++ [(note, n')])
                   (with_heap (<[note := n']> (heap w)) w)).
Proof.
  unfold on_add_note_change_type.
  destruct (source_model_ids w) as [|src srcs] eqn:Hsrc; [left; reflexivity|].
  destruct (target_model_id w) as [tid|] eqn:Htid; [|left; reflexivity].
  destruct (heap w !! note) as [n|] eqn:Hn; [|left; reflexivity].
  destruct (note_type n) as [nt|] eqn:Hnt; [|left; reflexivity].
  unfold py_in. destruct (bool_decide_reflect (nt_id nt ∈ src :: srcs))
    as [Hin|Hin]; cbn [negb]; [|left; reflexivity].
  destruct (contains_cloze unicode_Nd (Some n)) as [[|]|e] eqn:Hcl;
    try (left; reflexivity).
  destruct (mw_col w) as [c|] eqn:Hc; [|left; reflexivity].
  destruct (models_get c tid) as [target|] eqn:Htgt; [|left; reflexivity].
  destruct (Z.eqb_spec (note_mid n) tid) as [Heq|Hne]; [left; reflexivity|].
  right.
  destruct (convert_spec note n tid target c w Hn Hc) as (r & Hr & Hconv).
  exists n, nt, tid, c, target, r.
  repeat (split; [first [assumption | reflexivity]|]).
  cbv zeta in *. rewrite Hconv. destruct (db_ok w); reflexivity.
Qed.

(** A note that already has the target type is left alone. *)
Lemma on_add_at_target (note : loc) (w : World) (n : Note) :
  heap w !! note = Some n -> target_model_id w = Some (note_mid n) ->
  snd (on_add note w) = w.
Proof.
  intros Hn Ht. destruct (on_add_cases note w) as [H|H]; [exact H|].
  destruct H as (n0 & nt & tid & c & target & r & Hn0 & _ & _ & _ & Ht0
                 & _ & _ & Hne & _).
  congruence.
Qed.

(** C1: a note of a source type that contains cloze markup, with an
    existing target model other than its own, gets the target's model id
    and a field list of the target's field count: the old fields in the
    first min(old count, target count) positions, the empty string in the
    others. *)
Theorem on_add_note_change_type_converts (note : loc) (w : World) (n : Note)
    (nt target : NotetypeDict) (tid : Z) (c : Collection) :
  heap w !! note = Some n ->
  note_type n = Some nt -> nt_id nt ∈ source_model_ids w ->
  contains_cloze unicode_Nd (Some n) = Ret true ->
  target_model_id w = Some tid -> mw_col w = Some c ->
  models_get c tid = Some target ->
  note_mid n <> tid ->
  exists n',
    fst (on_add note w) = Ret tt /\
    heap (snd (on_add note w)) !! note = Some n' /\
    note_mid n' = tid /\
    length (note_fields n') = length (nt_flds target) /\
    (forall i,
       (i < Nat.min (length (note_fields n)) (length (nt_flds target)))%nat ->
       note_fields n' !! i = note_fields n !! i) /\
    (forall i,
       (Nat.min (length (note_fields n)) (length (nt_flds target)) <= i
        < length (nt_flds target))%nat ->
       note_fields n' !! i = Some (PStr (lit ""))).
Proof.
  intros Hn Hnt Hin Hcl Htid Hc Htgt Hne.
  destruct (convert_spec note n tid target c w Hn Hc) as (r & Hr & Hconv).
  cbv zeta in Hconv.
  assert (Hrun : on_add note w
    = (Ret tt,
       with_flushed
         (flushed w ++ [(note, set_usn (col_usn c) (set_mod (clock w)
                                 (set_fields r (set_mid tid n))))])
         (with_heap (<[note := set_usn (col_usn c) (set_mod (clock w)
                                 (set_fields r (set_mid tid n)))]> (heap w))
            w))).
  { unfold on_add_note_change_type.
    destruct (source_model_ids w) as [|src srcs] eqn:Hsrc; [inversion Hin|].
    rewrite Htid, Hn, Hnt. unfold py_in.
    rewrite (bool_decide_eq_true_2 _ Hin). cbn [negb].
    rewrite Hcl, Hc, Htgt.
    destruct (Z.eqb_spec (note_mid n) tid) as [E|_]; [contradiction|].
    rewrite Hconv. destruct (db_ok w); reflexivity. }
  rewrite Hrun.
  destruct (copy_loop_fields (note_fields n) (length (nt_flds target)))
    as (r' & Hr' & Hlen & Hold & Hnew).
  assert (r' = r) as -> by congruence.
  eexists. split; [reflexivity|]. split; [apply lookup_insert_eq|].
  simpl. auto.
Qed.


(** C6: the conversion works on the object it is handed: no object appears
    or disappears, every other object is untouched, and of the note itself
    only mid, fields, mod and usn can change (its id, guid, tags and
    collection stay). *)
Theorem on_add_note_change_type_in_place (note : loc) (w : World) (n : Note) :
  heap w !! note = Some n ->
  exists n',
    heap (snd (on_add note w)) !! note = Some n' /\
    note_id n' = note_id n /\ note_guid n' = note_guid n /\
    note_tags n' = note_tags n /\ note_col n' = note_col n /\
    dom (heap (snd (on_add note w))) = dom (heap w) /\
    (forall l, l <> note -> heap (snd (on_add note w)) !! l = heap w !! l).
Proof.
  intros Hn. destruct (on_add_cases note w) as [H|H].
  - rewrite H. exists n. auto 10.
  - destruct H as (n0 & nt & tid & c & target & r & Hn0 & _ & _ & _ & _
                   & _ & _ & _ & _ & Hrun).
    assert (n0 = n) as -> by congruence.
    cbv zeta in Hrun. rewrite Hrun. simpl.
    eexists. split; [apply lookup_insert_eq|]. simpl.
    repeat (split; [reflexivity|]). split.
    + apply dom_insert_lookup_L. eauto.
    + intros l Hl. apply lookup_insert_ne. congruence.
Qed.

(** C8: a note whose model id is the target id is not modified, and running
    the hook a second time changes nothing the first run left. *)
Theorem on_add_note_change_type_idempotent (note : loc) (w : World) :
  (forall n, heap w !! note = Some n ->
             target_model_id w = Some (note_mid n) ->
             snd (on_add note w) = w) /\
  snd (on_add note (snd (on_add note w))) = snd (on_add note w).
Proof.
  split; [intros n; apply on_add_at_target|].
  destruct (on_add_cases note w) as [H|H].
  - rewrite H. exact H.
  - destruct H as (n & nt & tid & c & target & r & Hn & _ & _ & _ & Htid
                   & _ & _ & _ & _ & Hrun).
    cbv zeta in Hrun. rewrite Hrun. cbn [snd].
    eapply on_add_at_target.
    + simpl. apply lookup_insert_eq.
    + simpl. exact Htid.
Qed.

(** While no collection is open the target lookup cannot be made; whatever
    the hook does then, it does not touch the state. *)
Remark on_add_note_change_type_without_collection (note : loc) (w : World) :
  mw_col w = None -> snd (on_add note w) = w.
Proof.
  intros Hc. destruct (on_add_cases note w) as [H|H]; [exact H|].
  destruct H as (n & nt & tid & c & target & r & _ & _ & _ & _ & _ & Hc' & _).
  congruence.
Qed.

End Hook.

(** ** Suppression of the validation error *)


Section Suppression.
Variable unicode_Nd : N -> bool.


(** When the original check raises, the wrapper answers with the initial
    value of [original_result], which is NORMAL. *)
Remark wrapped_fields_check_original_raises (original direct : checker)
    (w : World) (note : Note) (e : exn) :
  original note = Raise e ->
  wrapped_fields_check unicode_Nd (Some original) direct w note = NORMAL.
Proof. intros H. unfold wrapped_fields_check. rewrite H. reflexivity. Qed.

End Suppression.

(** ** The cloze button *)

(** C7: the editor is given a script only when it has a note whose note
    type's id is one of the source ids; with an empty source list, no note,
    or a note of another type, the editor is left as it was. *)
Theorem show_cloze_button_only_for_source (w : World)
    (editor : option Editor) :
  (show_cloze_button_if_source w editor <> editor ->
   exists e n nt,
     editor = Some e /\ ed_note e = Some n /\ note_type n = Some nt /\
     nt_id nt ∈ source_model_ids w) /\
  (source_model_ids w = []
   \/ editor = None
   \/ (exists e, editor = Some e /\ ed_note e = None)
   \/ (exists e n, editor = Some e /\ ed_note e = Some n /\
         forall nt, note_type n = Some nt -> nt_id nt ∉ source_model_ids w) ->
   show_cloze_button_if_source w editor = editor).
Proof.
  unfold show_cloze_button_if_source. split.
  - destruct (source_model_ids w) as [|src srcs]; [congruence|].
    destruct editor as [e|]; [|congruence].
    destruct (ed_note e) as [n|] eqn:Hn; [|congruence].
    destruct (note_type n) as [nt|] eqn:Hnt; [|congruence].
    unfold py_in. destruct (bool_decide_reflect (nt_id nt ∈ src :: srcs))
      as [Hin|Hin]; cbn [negb]; [|congruence].
    intros _. eauto 8.
  - intros H.
    destruct (source_model_ids w) as [|src srcs] eqn:Hsrc; [reflexivity|].
    destruct editor as [e|]; [|reflexivity].
    destruct (ed_note e) as [n|] eqn:Hn; [|reflexivity].
    destruct (note_type n) as [nt|] eqn:Hnt; [|reflexivity].
    unfold py_in. destruct (bool_decide_reflect (nt_id nt ∈ src :: srcs))
      as [Hin|Hin]; cbn [negb]; [|reflexivity].
    exfalso.
    destruct H as [E|[E|[(e' & E & Hn')|(e' & n' & E & Hn' & Hno)]]];
      try discriminate E.
    + injection E as <-. congruence.
    + injection E as <-. rewrite Hn in Hn'. injection Hn' as <-.
      exact (Hno nt Hnt Hin).
Qed.

(** ** Installing the wrapper *)

Lemma apply_patch_again (has : bool) (cls : NoteClass) :
  fst (apply_patch has (fst (apply_patch has cls)))
  = fst (apply_patch has cls).
Proof.
  unfold apply_patch. destruct has; [|reflexivity].
  destruct cls as [[f|] [m|]]; reflexivity.
Qed.

Lemma run_module_once (has : bool) (k : nat) (cls : NoteClass) :
  run_module has (S k) cls = fst (apply_patch has cls).
Proof.
  revert cls. induction k as [|k IH]; intros cls; [reflexivity|].
  change (run_module has (S (S k)) cls)
    with (run_module has (S k) (fst (apply_patch has cls))).
  rewrite IH. apply apply_patch_again.
Qed.

Lemma apply_patch_stacked (has : bool) (cls : NoteClass) :
  (stacked (fst (apply_patch has cls)) <= S (stacked cls))%nat.
Proof.
  unfold apply_patch, stacked.
  destruct has; destruct cls as [[f|] [m|]]; simpl; lia.
Qed.

(** C10: a run of the patch logic that finds the marker attribute leaves
    the class alone; a run that wraps stores the method it wraps under the
    marker; so any number of runs is the same as one run, and at most one
    wrapper is ever added to [fields_check]. *)
Theorem patch_applied_at_most_once (has : bool) (cls : NoteClass) (k : nat) :
  (is_Some (_fields_check_original_auto_cloze cls) ->
   fst (apply_patch has cls) = cls) /\
  (fst (apply_patch has cls) = cls \/
   exists current,
     fields_check cls = Some current /\
     apply_patch has cls
       = ({| fields_check := Some (Wrapped current);
             _fields_check_original_auto_cloze := Some current |},
          Some current)) /\
  run_module has (S k) cls = fst (apply_patch has cls) /\
  (stacked (run_module has k cls) <= S (stacked cls))%nat.
Proof.
  split; [|split; [|split]].
  - intros [m Hm]. unfold apply_patch. destruct has; [|reflexivity].
    rewrite Hm. destruct (fields_check cls); reflexivity.
  - unfold apply_patch. destruct has; [|left; reflexivity].
    destruct cls as [[f|] [m|]]; simpl;
      try (left; reflexivity).
    right. exists f. split; reflexivity.
  - apply run_module_once.
  - destruct k as [|k]; [simpl; lia|].
    rewrite run_module_once. apply apply_patch_stacked.
Qed.

(** ** The configuration dialog *)

(** The loop runs to its end only over rows that all carry an id, and then
    it has collected these ids, pairwise distinct and none the target. *)
Lemma check_rows_inr (rows : list (option Z)) :
  forall (t : Z) (used : gset Z) (sel l : list Z),
    check_rows rows t used sel = inr l ->
    (forall x, x ∈ used <-> x ∈ sel) -> NoDup sel -> t ∉ sel ->
    exists ids, rows = (Some <$> ids) /\ l = sel ++ ids /\ NoDup l /\ t ∉ l.
Proof.
  induction rows as [|data rows IH]; intros t used sel l; simpl.
  - intros [= <-] _ Hnd Ht. exists []. rewrite app_nil_r. auto.
  - destruct data as [id|]; [|discriminate].
    destruct (truthy (Some id)); cbn [negb]; [|discriminate].
    destruct (Z.eqb_spec id t) as [_|Hne]; [discriminate|].
    destruct (bool_decide_reflect (id ∈ used)) as [_|Hfresh]; [discriminate|].
    intros Hrun Hused Hnd Ht.
    apply IH in Hrun as (ids & -> & -> & Hnd' & Ht').
    + exists (id :: ids). rewrite <- app_assoc in *. auto.
    + intros x. rewrite elem_of_union, elem_of_singleton, elem_of_app,
        list_elem_of_singleton, Hused. tauto.
    + apply NoDup_app. split; [exact Hnd|]. split; [|apply NoDup_singleton].
      intros x Hx Hx'. apply list_elem_of_singleton in Hx' as ->.
      apply Hfresh, Hused, Hx.
    + rewrite elem_of_app, list_elem_of_singleton. intros [H|H]; auto.
Qed.

(** The three ways [save_config] can end. *)
Lemma save_config_cases (d : ConfigDialog) :
  (exists m, save_config d = show m d) \/
  (exists t ids,
     target_combo d = Some t /\ source_widgets d = (Some <$> ids) /\
     ids <> [] /\ NoDup ids /\ (t ∉ ids) /\
     (let c := <[CONFIG_KEY_SOURCE_MODELS := CList ids]>
                 (<[CONFIG_KEY_TARGET_MODEL := CInt t]> (config d)) in
      config (save_config d) = c /\
      if write_ok d
      then stored_config (save_config d) = c /\ accepted (save_config d) = true
      else stored_config (save_config d) = stored_config d /\
           accepted (save_config d) = accepted d)).
Proof.
  unfold save_config.
  destruct (target_combo d) as [t|] eqn:Ht; [|eauto].
  destruct (truthy (Some t)); cbn [negb]; [|eauto].
  destruct (check_rows (source_widgets d) t ∅ []) as [m|l] eqn:Hrows; [eauto|].
  apply check_rows_inr in Hrows as (ids & Hids & -> & Hnd & Hnt).
  2: { intros x. rewrite elem_of_empty, elem_of_nil. tauto. }
  2: { apply NoDup_nil_2. }
  2: { apply not_elem_of_nil. }
  simpl in *. destruct ids as [|id ids]; [eauto|].
  right. exists t, (id :: ids).
  split; [reflexivity|]. split; [exact Hids|]. split; [discriminate|].
  split; [exact Hnd|]. split; [exact Hnt|].
  unfold writeConfig. simpl. destruct (write_ok d); simpl; auto.
Qed.

(** C5: a dialog that is open is closed, and the stored configuration
    replaced, only when the selection is valid; the configuration written is
    then well formed; with an invalid selection the stored configuration,
    the dialog's own configuration and its being open stay as they were. *)
Theorem save_config_validates (d : ConfigDialog) :
  accepted d = false ->
  (accepted (save_config d) = true
   \/ stored_config (save_config d) <> stored_config d ->
   selection_valid d /\
   accepted (save_config d) = true /\
   stored_config (save_config d) = config (save_config d) /\
   well_formed_config (stored_config (save_config d))) /\
  (~ selection_valid d ->
   stored_config (save_config d) = stored_config d /\
   accepted (save_config d) = false /\
   config (save_config d) = config d).
Proof.
  intros Hopen.
  destruct (save_config_cases d) as [[m Hm]|H].
  - rewrite Hm. simpl. split; [|auto].
    intros [H|H]; [congruence | contradiction].
  - destruct H as (t & ids & Ht & Hrows & Hne & Hnd & Hnt & Hcfg & Hw).
    cbv zeta in Hcfg.
    assert (Hvalid : selection_valid d).
    { exists t. split; [exact Ht|]. rewrite Hrows. split; [|split].
      - intros row Hrow. apply list_elem_of_fmap in Hrow as (id & -> & Hid).
        exists id. split; [reflexivity|]. intros ->. contradiction.
      - apply NoDup_fmap_2; [|exact Hnd]. intros x y [= ->]. reflexivity.
      - destruct ids; [congruence | discriminate]. }
    split; [|intros H; contradiction].
    destruct (write_ok d); destruct Hw as [Hst Hacc].
    + intros _. split; [exact Hvalid|]. split; [exact Hacc|].
      split; [congruence|]. rewrite Hst.
      exists t, ids. split; [|split; [apply lookup_insert_eq | auto]].
      rewrite lookup_insert_ne by discriminate. apply lookup_insert_eq.
    + intros [H|H]; [congruence | contradiction].
Qed.

(** * The properties at concrete inputs *)

Example cloze_spans_newline :
  contains_cloze ascii_digit
    (Some (sample_note sample_col 10 [PNone; PStr (lit "a {{c12::x
y}} b")])) = Ret true.
Proof. vm_compute. reflexivity. Qed.

Example cloze_needs_digit :
  contains_cloze ascii_digit
    (Some (sample_note sample_col 10 [PStr (lit "a {{c::x}} b")])) = Ret false.
Proof. vm_compute. reflexivity. Qed.

Example demo_conversion :
  heap (snd (on_add_note_change_type ascii_digit 1%positive demo_world)) !! 1%positive
  = Some (set_usn (-1) (set_mod 1000 (set_fields
            [PStr (lit "The {{c1::mitochondrion}} is the powerhouse");
             PStr (lit "cell biology")] (set_mid 20 demo_note)))).
Proof. vm_compute. reflexivity. Qed.

Example demo_conversion_pads :
  note_fields <$>
    heap (snd (on_add_note_change_type ascii_digit 1%positive
                 (sample_world [20] (Some 10) (Some sample_col) cloze_note)))
      !! 1%positive
  = Some [PStr (lit "{{c1::Paris}}"); PStr (lit ""); PStr (lit "")].
Proof. vm_compute. reflexivity. Qed.

Lemma on_add_note_change_type_converts_witness :
  heap demo_world !! 1%positive = Some demo_note /\
  contains_cloze ascii_digit (Some demo_note) = Ret true /\
  exists n',
    fst (on_add_note_change_type ascii_digit 1%positive demo_world) = Ret tt /\
    heap (snd (on_add_note_change_type ascii_digit 1%positive demo_world)) !! 1%positive
      = Some n' /\
    note_mid n' = 20 /\
    length (note_fields n') = length (nt_flds cloze) /\
    (forall i,
       (i < Nat.min (length (note_fields demo_note)) (length (nt_flds cloze)))%nat ->
       note_fields n' !! i = note_fields demo_note !! i) /\
    (forall i,
       (Nat.min (length (note_fields demo_note)) (length (nt_flds cloze)) <= i
        < length (nt_flds cloze))%nat ->
       note_fields n' !! i = Some (PStr (lit ""))).
Proof.
  split; [reflexivity|]. split; [vm_compute; reflexivity|].
  apply (on_add_note_change_type_converts ascii_digit 1%positive demo_world
           demo_note basic cloze 20 sample_col).
  - reflexivity.
  - reflexivity.
  - simpl. left.
  - vm_compute. reflexivity.
  - reflexivity.
  - reflexivity.
  - reflexivity.
  - simpl. lia.
Defined.


Lemma on_add_note_change_type_in_place_witness :
  heap demo_world !! 1%positive = Some demo_note /\
  exists n',
    heap (snd (on_add_note_change_type ascii_digit 1%positive demo_world)) !! 1%positive
      = Some n' /\
    note_id n' = note_id demo_note /\ note_guid n' = note_guid demo_note /\
    note_tags n' = note_tags demo_note /\ note_col n' = note_col demo_note /\
    dom (heap (snd (on_add_note_change_type ascii_digit 1%positive demo_world)))
      = dom (heap demo_world) /\
    (forall l, l <> 1%positive ->
       heap (snd (on_add_note_change_type ascii_digit 1%positive demo_world)) !! l
       = heap demo_world !! l).
Proof.
  split; [reflexivity|].
  apply (on_add_note_change_type_in_place ascii_digit 1%positive demo_world
           demo_note).
  reflexivity.
Defined.

Lemma on_add_note_change_type_idempotent_witness :
  target_model_id cloze_world = Some (note_mid cloze_note) /\
  snd (on_add_note_change_type ascii_digit 1%positive cloze_world) = cloze_world.
Proof.
  split; [reflexivity|].
  apply (proj1 (on_add_note_change_type_idempotent ascii_digit 1%positive
                  cloze_world) cloze_note); reflexivity.
Defined.

Lemma contains_cloze_total_witness :
  Forall (fun v => isinstance_str v = false) (note_fields odd_note) /\
  contains_cloze ascii_digit (Some odd_note) = Ret false.
Proof.
  assert (H : Forall (fun v => isinstance_str v = false) (note_fields odd_note))
    by (simpl; repeat constructor).
  split; [exact H|].
  apply (proj2 (proj2 (contains_cloze_total ascii_digit (Some odd_note)))).
  intros n [= <-]. exact H.
Defined.



Lemma show_cloze_button_only_for_source_witness :
  show_cloze_button_if_source demo_world demo_editor <> demo_editor /\
  exists e n nt,
    demo_editor = Some e /\ ed_note e = Some n /\ note_type n = Some nt /\
    nt_id nt ∈ source_model_ids demo_world.
Proof.
  assert (H : show_cloze_button_if_source demo_world demo_editor <> demo_editor)
    by (vm_compute; discriminate).
  split; [exact H|].
  apply (proj1 (show_cloze_button_only_for_source demo_world demo_editor)).
  exact H.
Defined.

Example demo_editor_script :
  ed_web <$> show_cloze_button_if_source demo_world demo_editor
  = Some (Some [show_cloze_toolbar_52]).
Proof. vm_compute. reflexivity. Qed.

Lemma patch_applied_at_most_once_witness :
  is_Some (_fields_check_original_auto_cloze (fst (apply_patch true fresh_class)))
  /\ fst (apply_patch true (fst (apply_patch true fresh_class)))
     = fst (apply_patch true fresh_class).
Proof.
  assert (H : is_Some (_fields_check_original_auto_cloze
                         (fst (apply_patch true fresh_class))))
    by (simpl; eexists; reflexivity).
  split; [exact H|].
  apply (proj1 (patch_applied_at_most_once true
                  (fst (apply_patch true fresh_class)) 0)).
  exact H.
Defined.

Example fresh_class_patched :
  run_module true 3 fresh_class
  = {| fields_check := Some (Wrapped HostMethod);
       _fields_check_original_auto_cloze := Some HostMethod |}.
Proof. reflexivity. Qed.

Lemma save_config_validates_witness :
  accepted (dialog_with (Some 20) [Some 10; Some 30]) = false /\
  accepted (save_config (dialog_with (Some 20) [Some 10; Some 30])) = true /\
  well_formed_config
    (stored_config (save_config (dialog_with (Some 20) [Some 10; Some 30]))).
Proof.
  assert (H : accepted (save_config (dialog_with (Some 20) [Some 10; Some 30]))
              = true) by (vm_compute; reflexivity).
  split; [reflexivity|]. split; [exact H|].
  apply (proj1 (save_config_validates
                  (dialog_with (Some 20) [Some 10; Some 30]) eq_refl)).
  left. exact H.
Defined.

Example save_config_rejects_duplicate :
  shown (save_config (dialog_with (Some 20) [Some 10; Some 10]))
  = [info_source_duplicate].
Proof. vm_compute. reflexivity. Qed.

Example save_config_rejects_target_as_source :
  shown (save_config (dialog_with (Some 20) [Some 10; Some 20]))
  = [info_source_is_target].
Proof. vm_compute. reflexivity. Qed.

(** * Further properties of change_logic.py *)

Section HookDetails.
Variable unicode_Nd : N -> bool.

Abbreviation on_add := (on_add_note_change_type unicode_Nd).

(** The run of the hook on a note that meets the conversion precondition. *)
Lemma on_add_converted_state (note : loc) (w : World) (n : Note)
    (nt target : NotetypeDict) (tid : Z) (c : Collection) :
  heap w !! note = Some n ->
  note_type n = Some nt -> nt_id nt ∈ source_model_ids w ->
  contains_cloze unicode_Nd (Some n) = Ret true ->
  target_model_id w = Some tid -> mw_col w = Some c ->
  models_get c tid = Some target ->
  note_mid n <> tid ->
  exists new_fields,
    copy_loop (seq 0 (Nat.min (length (note_fields n)) (length (nt_flds target))))
      (note_fields n) (replicate (length (nt_flds target)) (PStr (lit "")))
      = Ret new_fields /\
    on_add note w
    = (Ret tt,
       with_flushed
         (flushed w ++ [(note, set_usn (col_usn c) (set_mod (clock w)
                                 (set_fields new_fields (set_mid tid n))))])
         (with_heap (<[note := set_usn (col_usn c) (set_mod (clock w)
                                 (set_fields new_fields (set_mid tid n)))]>
                       (heap w)) w)).
Proof.
  intros Hn Hnt Hin Hcl Htid Hc Htgt Hne.
  destruct (convert_spec note n tid target c w Hn Hc) as (r & Hr & Hconv).
  cbv zeta in Hconv. exists r. split; [exact Hr|].
  unfold on_add_note_change_type.
  destruct (source_model_ids w) as [|src srcs] eqn:Hsrc; [inversion Hin|].
  rewrite Htid, Hn, Hnt. unfold py_in.
  rewrite (bool_decide_eq_true_2 _ Hin). cbn [negb].
  rewrite Hcl, Hc, Htgt.
  destruct (Z.eqb_spec (note_mid n) tid) as [E|_]; [contradiction|].
  rewrite Hconv. destruct (db_ok w); reflexivity.
Qed.

(** X1: a conversion stamps the note with the current time and the
    collection's usn and calls flush exactly once, on the converted note;
    the hook returns normally whether or not the flush succeeds. *)
Theorem on_add_note_change_type_stamps_and_flushes (note : loc) (w : World)
    (n : Note) (nt target : NotetypeDict) (tid : Z) (c : Collection) :
  heap w !! note = Some n ->
  note_type n = Some nt -> nt_id nt ∈ source_model_ids w ->
  contains_cloze unicode_Nd (Some n) = Ret true ->
  target_model_id w = Some tid -> mw_col w = Some c ->
  models_get c tid = Some target ->
  note_mid n <> tid ->
  exists n',
    fst (on_add note w) = Ret tt /\
    heap (snd (on_add note w)) !! note = Some n' /\
    note_mod n' = clock w /\ note_usn n' = col_usn c /\
    flushed (snd (on_add note w)) = flushed w ++ [(note, n')].
Proof.
  intros Hn Hnt Hin Hcl Htid Hc Htgt Hne.
  destruct (on_add_converted_state note w n nt target tid c)
    as (r & _ & Hrun); try assumption.
  rewrite Hrun. eexists. split; [reflexivity|].
  split; [apply lookup_insert_eq|]. simpl. auto.
Qed.

(** X2: the markup survives a conversion whenever it sits in a field the
    target keeps: a string field with markup at an index below the target's
    field count makes the converted note contain cloze markup again. *)
Theorem on_add_note_change_type_keeps_markup (note : loc) (w : World)
    (n : Note) (nt target : NotetypeDict) (tid : Z) (c : Collection)
    (i : nat) (s : pystr) :
  heap w !! note = Some n ->
  note_type n = Some nt -> nt_id nt ∈ source_model_ids w ->
  contains_cloze unicode_Nd (Some n) = Ret true ->
  target_model_id w = Some tid -> mw_col w = Some c ->
  models_get c tid = Some target ->
  note_mid n <> tid ->
  note_fields n !! i = Some (PStr s) -> cloze_markup unicode_Nd s ->
  (i < length (nt_flds target))%nat ->
  contains_cloze unicode_Nd (heap (snd (on_add note w)) !! note) = Ret true.
Proof.
  intros Hn Hnt Hin Hcl Htid Hc Htgt Hne Hi Hs Hlt.
  destruct (on_add_converted_state note w n nt target tid c)
    as (r & Hr & Hrun); try assumption.
  rewrite Hrun. cbn [snd with_flushed with_heap heap].
  rewrite lookup_insert_eq, contains_cloze_scan. cbn [note_fields set_usn
    set_mod set_fields].
  destruct (copy_loop_fields (note_fields n) (length (nt_flds target)))
    as (r' & Hr' & _ & Hold & _).
  assert (r' = r) as -> by congruence.
  assert (Hri : r !! i = Some (PStr s)).
  { rewrite Hold; [exact Hi|]. apply lookup_lt_Some in Hi. lia. }
  assert (Hscan : scan_fields unicode_Nd r = Ret true).
  { apply scan_fields_true. exists s. split; [|exact Hs].
    apply list_elem_of_lookup. eauto. }
  rewrite Hscan. reflexivity.
Qed.

(** Without a saved original the wrapper falls back on the class
    attribute; when that call returns, the answer is the one the saved
    original would have given, and when it raises the fallback reports
    INVALID_INPUT where the saved original's failure is reported as
    NORMAL. *)
Theorem wrapped_fields_check_fallback (direct : checker) (w : World)
    (note : Note) :
  (forall r, direct note = Ret r ->
     wrapped_fields_check unicode_Nd None direct w note
     = wrapped_fields_check unicode_Nd (Some direct) direct w note) /\
  (forall e, direct note = Raise e ->
     wrapped_fields_check unicode_Nd None direct w note = INVALID_INPUT /\
     wrapped_fields_check unicode_Nd (Some direct) direct w note = NORMAL).
Proof.
  unfold wrapped_fields_check. split.
  - intros r ->. reflexivity.
  - intros e ->. split; reflexivity.
Qed.


End HookDetails.

(** X4: when the dialog was closed by a successful save, the globals the
    hooks read are exactly the saved selection -- the selected source ids in
    row order and the selected target -- with the target not among the
    sources and no source twice; when it was closed any other way the
    globals stay. *)
Theorem show_config_dialog_loads_saved (d : ConfigDialog) (w : World) :
  accepted d = false ->
  show_config_dialog d w = Ret w /\
  (accepted (save_config d) = true ->
   exists t ids,
     target_combo d = Some t /\ source_widgets d = (Some <$> ids) /\
     show_config_dialog (save_config d) w = Ret (with_globals ids (Some t) w) /\
     (t ∉ ids) /\ NoDup ids /\ ids <> []).
Proof.
  intros Hopen. split.
  { unfold show_config_dialog. rewrite Hopen. reflexivity. }
  intros Hacc. destruct (save_config_cases d) as [[m Hm]|H].
  { rewrite Hm in Hacc. simpl in Hacc. congruence. }
  destruct H as (t & ids & Ht & Hrows & Hne & Hnd & Hnt & Hcfg & Hw).
  exists t, ids. split; [exact Ht|]. split; [exact Hrows|].
  split; [|auto]. unfold show_config_dialog. rewrite Hacc, Hcfg.
  rewrite bool_decide_eq_false_2.
  2: { intros E. apply (f_equal (fun m => m !! CONFIG_KEY_SOURCE_MODELS)) in E.
       rewrite lookup_insert_eq, lookup_empty in E. discriminate E. }
  unfold read_globals. rewrite lookup_insert_eq.
  rewrite lookup_insert_ne by discriminate. rewrite lookup_insert_eq.
  reflexivity.
Qed.

(** X5: one call of the editor hook hands the web view at most one script,
    after those it already evaluated, and never touches the editor's note;
    the script is the one for the running version. *)
Theorem show_cloze_button_appends_at_most_one (w : World) (e : Editor) :
  exists e',
    show_cloze_button_if_source w (Some e) = Some e' /\
    ed_note e' = ed_note e /\
    (ed_web e' = ed_web e \/
     exists evaluated js,
       ed_web e = Some evaluated /\ ed_web e' = Some (evaluated ++ [js]) /\
       match js with
       | show_cloze_toolbar_52 =>
           tuple_ge (ANKI_VERSION_TUPLE w) [2; 1; 52] = true
       | show_cloze_templateButtons_50 =>
           tuple_ge (ANKI_VERSION_TUPLE w) [2; 1; 52] = false /\
           tuple_ge (ANKI_VERSION_TUPLE w) [2; 1; 50] = true
       | show_cloze_editorToolbar_45 =>
           tuple_ge (ANKI_VERSION_TUPLE w) [2; 1; 50] = false /\
           tuple_ge (ANKI_VERSION_TUPLE w) [2; 1; 45] = true
       end).
Proof.
  assert (Hsame : exists e',
    Some e = Some e' /\ ed_note e' = ed_note e /\
    (ed_web e' = ed_web e \/
     exists evaluated js,
       ed_web e = Some evaluated /\ ed_web e' = Some (evaluated ++ [js]) /\
       match js with
       | show_cloze_toolbar_52 =>
           tuple_ge (ANKI_VERSION_TUPLE w) [2; 1; 52] = true
       | show_cloze_templateButtons_50 =>
           tuple_ge (ANKI_VERSION_TUPLE w) [2; 1; 52] = false /\
           tuple_ge (ANKI_VERSION_TUPLE w) [2; 1; 50] = true
       | show_cloze_editorToolbar_45 =>
           tuple_ge (ANKI_VERSION_TUPLE w) [2; 1; 50] = false /\
           tuple_ge (ANKI_VERSION_TUPLE w) [2; 1; 45] = true
       end)) by (exists e; auto).
  unfold show_cloze_button_if_source.
  destruct (source_model_ids w) as [|src srcs]; [exact Hsame|].
  destruct (ed_note e) as [n|] eqn:Hn; [|exact Hsame].
  destruct (note_type n) as [nt|]; [|exact Hsame].
  destruct (negb _); [exact Hsame|].
  clear Hsame. unfold web_eval.
  destruct (tuple_ge (ANKI_VERSION_TUPLE w) [2; 1; 52]) eqn:H52;
    [|destruct (tuple_ge (ANKI_VERSION_TUPLE w) [2; 1; 50]) eqn:H50;
      [|destruct (tuple_ge (ANKI_VERSION_TUPLE w) [2; 1; 45]) eqn:H45]];
    destruct (ed_web e) as [evaluated|] eqn:Hweb;
    first
      [ exists e; split; [reflexivity|]; split; [congruence|]; left; congruence
      | eexists; split; [reflexivity|]; split; [simpl; congruence|]; right;
        eexists _, _; split; [reflexivity|]; split; [reflexivity|];
        simpl; auto ].
Qed.

(** * The compatibility hooks *)

Section LegacyFacts.
Variable R : Type.
Variable MODEL_CLOZE : Z.
Variable re_search_host : pystr -> pystr -> Z -> res bool.
Variable sources : list Z.

Abbreviation call := (call_search re_search_host).

Lemma unhook_hook (st : ReModule) :
  _re_search_hooked_by_auto_cloze st = false -> _oldReSearch st = None ->
  unhook_re_search_if_hooked (hook_re_search_if_needed st) = st.
Proof. destruct st as [f old hooked]. simpl. intros -> ->. reflexivity. Qed.

(** X6: hooking and unhooking is a round trip on a state that is not
    hooked; while hooked, [re.search] answers True for the template checker's
    pattern with any subject and hands every other pattern to the function
    it replaced. *)
Theorem hook_unhook_round_trip (st : ReModule) :
  _re_search_hooked_by_auto_cloze st = false -> _oldReSearch st = None ->
  unhook_re_search_if_hooked (hook_re_search_if_needed st) = st /\
  (forall subject flags,
     call (hook_re_search_if_needed st)
       (re_search (hook_re_search_if_needed st))
       _clozeCheckerTemplateRegex subject flags = Ret true) /\
  (re_search st = host_search ->
   forall pattern subject flags,
     pattern <> _clozeCheckerTemplateRegex ->
     call (hook_re_search_if_needed st)
       (re_search (hook_re_search_if_needed st)) pattern subject flags
     = re_search_host pattern subject flags).
Proof.
  destruct st as [f old hooked].
  cbn [_re_search_hooked_by_auto_cloze _oldReSearch re_search]. intros -> ->.
  split; [reflexivity|].
  unfold call_search, hook_re_search_if_needed.
  cbn [_re_search_hooked_by_auto_cloze _oldReSearch re_search]. split.
  - intros subject flags.
    rewrite bool_decide_eq_true_2 by reflexivity. reflexivity.
  - intros -> pattern subject flags Hne.
    rewrite bool_decide_eq_false_2 by exact Hne. reflexivity.
Qed.

(** X7: whatever the order in which the two functions are called from the
    initial state, [re] is in one of two states: untouched, or hooked with
    the interpreter's function saved.  The saved function is never the
    replacement itself, so a call of [re.search] answers True or what the
    interpreter's function answers, and never recurses. *)
Theorem run_hooks_two_states (calls : list bool) :
  (run_hooks calls re_clean = re_clean \/
   run_hooks calls re_clean = re_hooked) /\
  forall pattern subject flags,
    call (run_hooks calls re_clean) (re_search (run_hooks calls re_clean))
      pattern subject flags = Ret true \/
    call (run_hooks calls re_clean) (re_search (run_hooks calls re_clean))
      pattern subject flags = re_search_host pattern subject flags.
Proof.
  assert (H : run_hooks calls re_clean = re_clean \/
              run_hooks calls re_clean = re_hooked).
  { unfold run_hooks. induction calls as [|c calls IH] using rev_ind.
    - left. reflexivity.
    - rewrite foldl_app. simpl.
      destruct IH as [-> | ->]; destruct c; simpl; auto. }
  split; [exact H|]. intros pattern subject flags.
  destruct H as [-> | ->]; unfold call_search;
    cbn [re_search _oldReSearch re_clean re_hooked].
  - right. reflexivity.
  - destruct (bool_decide (pattern = _clozeCheckerTemplateRegex)); auto.
Qed.

(** X8: [_onClozeNew_old] replaces [re.search] only for the call of the
    wrapped method -- when the note type is a source type, the editor is in
    add mode and no template matches the checker's pattern -- and puts the
    former state of [re] back afterwards, also when the wrapped method
    raises; the outcome of the wrapped method is passed on. *)
Theorem _onClozeNew_old_restores (_old : OnCloze R) (self : LegacyEditor)
    (nt : LegacyNotetype) :
  (forall s, le_re (snd (_old s)) = le_re s) ->
  _re_search_hooked_by_auto_cloze (le_re self) = false ->
  _oldReSearch (le_re self) = None ->
  le_note_type self = Some nt ->
  let template_has_cloze_format :=
    match scan_templates re_search_host (le_re self) (lt_tmpls nt) with
    | Ret b => b
    | Raise _ => false
    end in
  let seen :=
    if py_in (lt_id nt) sources && in_add_mode self
       && negb template_has_cloze_format
    then with_re (hook_re_search_if_needed (le_re self)) self
    else self in
  _onClozeNew_old R re_search_host sources _old self
  = (passed_on (fst (_old seen)), with_re (le_re self) (snd (_old seen))).
Proof.
  intros Hframe Hclean Hnone Hnt tmpl seen.
  assert (Heta : forall s, le_re s = le_re self -> with_re (le_re self) s = s).
  { intros [a b c] E. simpl in E. subst c. reflexivity. }
  unfold _onClozeNew_old. rewrite Hnt. subst seen tmpl.
  destruct (py_in (lt_id nt) sources && in_add_mode self); cbn [andb].
  - destruct (match scan_templates _ _ _ with Ret b => b | Raise _ => false end);
      cbn [negb].
    + destruct (_old self) as [result self'] eqn:E.
      assert (Hre : le_re self' = le_re self)
        by (pose proof (Hframe self) as Hf; rewrite E in Hf; exact Hf).
      cbn [fst snd]. rewrite (Heta _ Hre). destruct result; reflexivity.
    + set (seen := with_re (hook_re_search_if_needed (le_re self)) self).
      destruct (_old seen) as [result self'] eqn:E.
      assert (Hre : le_re self' = hook_re_search_if_needed (le_re self))
        by (pose proof (Hframe seen) as Hf; rewrite E in Hf; exact Hf).
      cbn [fst snd]. rewrite Hre.
      rewrite (unhook_hook (le_re self) Hclean Hnone).
      destruct self' as [a b c]. destruct result; reflexivity.
  - destruct (_old self) as [result self'] eqn:E.
    assert (Hre : le_re self' = le_re self)
      by (pose proof (Hframe self) as Hf; rewrite E in Hf; exact Hf).
    cbn [fst snd]. rewrite (Heta _ Hre). destruct result; reflexivity.
Qed.

(** X9: [_onClozeNew_40] shows the wrapped method a note type whose
    "type" is MODEL_CLOZE when the note type is a source type and the editor
    is in add mode, and afterwards the note type is what it was -- its
    "type" entry restored or removed again -- also when the wrapped method
    raises; the outcome of the wrapped method is passed on. *)
Theorem _onClozeNew_40_restores (_old : OnCloze R) (self : LegacyEditor)
    (nt : LegacyNotetype) :
  (forall s, le_note_type (snd (_old s)) = le_note_type s) ->
  le_note_type self = Some nt ->
  let seen :=
    if py_in (lt_id nt) sources && in_add_mode self
    then with_note_type
           (Some {| lt_id := lt_id nt; lt_type := Some MODEL_CLOZE;
                    lt_tmpls := lt_tmpls nt |}) self
    else self in
  _onClozeNew_40 R MODEL_CLOZE sources _old self
  = (passed_on (fst (_old seen)), with_note_type (Some nt) (snd (_old seen))).
Proof.
  intros Hframe Hnt seen.
  assert (Heta : forall s, le_note_type s = Some nt ->
                           with_note_type (Some nt) s = s).
  { intros [a b c] E. simpl in E. subst a. reflexivity. }
  unfold _onClozeNew_40. rewrite Hnt. subst seen.
  destruct (py_in (lt_id nt) sources && in_add_mode self).
  - destruct (bool_decide_reflect (lt_type nt <> Some MODEL_CLOZE))
      as [Hne|Heq].
    + unfold set_type at 1. rewrite Hnt. cbn [snd].
      set (seen := with_note_type _ self).
      destruct (_old seen) as [result self'] eqn:E.
      assert (Hty : le_note_type self' = le_note_type seen)
        by (pose proof (Hframe seen) as Hf; rewrite E in Hf; exact Hf).
      cbn [fst snd]. unfold set_type, del_type. rewrite Hty.
      cbn [le_note_type seen with_note_type lt_id lt_tmpls].
      destruct nt as [id [type|] tmpls]; cbn [lt_type lt_id lt_tmpls];
        destruct result; reflexivity.
    + assert (Hty : lt_type nt = Some MODEL_CLOZE).
      { destruct (decide (lt_type nt = Some MODEL_CLOZE)); tauto. }
      assert (Hsame : with_note_type
                (Some {| lt_id := lt_id nt; lt_type := Some MODEL_CLOZE;
                         lt_tmpls := lt_tmpls nt |}) self = self).
      { rewrite <- Hty. destruct nt. apply Heta. exact Hnt. }
      rewrite Hsame.
      destruct (_old self) as [result self'] eqn:E.
      assert (Hty' : le_note_type self' = Some nt)
        by (pose proof (Hframe self) as Hf; rewrite E in Hf; simpl in Hf;
          congruence).
      cbn [fst snd]. rewrite (Heta _ Hty'). destruct result; reflexivity.
  - destruct (_old self) as [result self'] eqn:E.
    assert (Hty' : le_note_type self' = Some nt)
      by (pose proof (Hframe self) as Hf; rewrite E in Hf; simpl in Hf;
          congruence).
    cbn [fst snd]. rewrite (Heta _ Hty'). destruct result; reflexivity.
Qed.

End LegacyFacts.

Lemma wrap_onCloze_again (around : EditorMethod -> EditorMethod)
    (cls : EditorClass) :
  wrap_onCloze around (wrap_onCloze around cls) = wrap_onCloze around cls.
Proof.
  unfold wrap_onCloze. destruct cls as [[m|] [|]]; reflexivity.
Qed.

Lemma install_patches_again (has : bool) (version : list Z)
    (classes : NoteClass * EditorClass) :
  install_patches has version (install_patches has version classes)
  = install_patches has version classes.
Proof.
  unfold install_patches. destruct has; cbn [fst snd].
  - rewrite apply_patch_again. reflexivity.
  - destruct (tuple_ge version [2; 1; 40]); cbn [fst snd];
      rewrite wrap_onCloze_again; reflexivity.
Qed.

(** X10: one load of the module patches one class only -- [Note] when the
    host has NoteFieldsCheckResult, [Editor] otherwise -- and loading it
    again changes nothing more; [Editor._onCloze] gains at most one
    wrapper. *)
Theorem install_patches_once (has : bool) (version : list Z)
    (classes : NoteClass * EditorClass) (k : nat) :
  Nat.iter (S k) (install_patches has version) classes
    = install_patches has version classes /\
  (if has then snd (install_patches has version classes) = snd classes
   else fst (install_patches has version classes) = fst classes) /\
  (_onCloze (snd (install_patches has version classes)) = _onCloze (snd classes)
   \/ exists old,
        _onCloze (snd classes) = Some old /\
        _onCloze_wrapped_by_auto_cloze (snd classes) = false /\
        _onCloze_wrapped_by_auto_cloze
          (snd (install_patches has version classes)) = true /\
        _onCloze (snd (install_patches has version classes))
        = Some (if tuple_ge version [2; 1; 40] then Around40 old
                else AroundOld old)).
Proof.
  split; [|split].
  - induction k as [|k IH]; [reflexivity|].
    rewrite Nat.iter_succ, IH. apply install_patches_again.
  - unfold install_patches. destruct has; [reflexivity|].
    destruct (tuple_ge version [2; 1; 40]); reflexivity.
  - unfold install_patches, wrap_onCloze. destruct has; [left; reflexivity|].
    destruct classes as [ncls [[old|] [|]]]; cbn [fst snd _onCloze
      _onCloze_wrapped_by_auto_cloze];
      destruct (tuple_ge version [2; 1; 40]); cbn [fst snd _onCloze
      _onCloze_wrapped_by_auto_cloze]; try (left; reflexivity);
      right; exists old; auto.
Qed.

(** * The configuration form *)

Lemma item_data_elem (items : list (option Z)) (i z : Z) :
  item_data items i = Some z -> Some z ∈ items.
Proof.
  unfold item_data. destruct (i <? 0); [discriminate|].
  destruct (items !! Z.to_nat i) as [data|] eqn:E; [|discriminate].
  intros ->. apply list_elem_of_lookup. eauto.
Qed.

Lemma first_index_Some (items : list (option Z)) (x : option Z) (i : nat) :
  first_index items x = Some i -> items !! i = Some x.
Proof.
  revert i. induction items as [|data rest IH]; intros i; simpl; [discriminate|].
  destruct (bool_decide_reflect (data = x)) as [->|_].
  - intros [= <-]. reflexivity.
  - destruct (first_index rest x) as [j|]; [|discriminate].
    intros [= <-]. simpl. apply IH. reflexivity.
Qed.

Lemma first_index_None (items : list (option Z)) (x : option Z) :
  first_index items x = None -> x ∉ items.
Proof.
  induction items as [|data rest IH]; simpl; [intros _; apply not_elem_of_nil|].
  destruct (bool_decide_reflect (data = x)) as [->|Hne]; [discriminate|].
  destruct (first_index rest x) as [j|]; [discriminate|].
  intros _ H. apply elem_of_cons in H as [H|H]; [congruence|].
  exact (IH eq_refl H).
Qed.

Lemma item_data_first_index (items : list (option Z)) (x : option Z) (i : nat) :
  first_index items x = Some i -> item_data items (Z.of_nat i) = x.
Proof.
  intros H. apply first_index_Some in H. unfold item_data.
  destruct (Z.ltb_spec (Z.of_nat i) 0) as [Hlt|_]; [lia|].
  rewrite Nat2Z.id, H. reflexivity.
Qed.

(** ** Clearing and removing rows *)

Lemma clear_loop_spec (pending : list Row) : forall f,
  clear_loop pending f
  = match pending with
    | [] => f
    | _ :: _ =>
        {| form_config := form_config f; all_models := all_models f;
           form_target_model_id := form_target_model_id f;
           target_items := target_items f; target_index := target_index f;
           rows := []; add_button_enabled := add_button_enabled f;
           next_widget := next_widget f;
           deleted := deleted f ++ (row_widget <$> pending);
           tips := tips f |}
    end.
Proof.
  induction pending as [|r rest IH]; intros f; [reflexivity|].
  cbn [clear_loop]. rewrite IH. destruct rest as [|r' rest'].
  - reflexivity.
  - cbn [deleteLater set_rows form_config all_models form_target_model_id
      target_items target_index rows add_button_enabled next_widget deleted
      tips]. rewrite <- app_assoc. reflexivity.
Qed.

Lemma clear_all_sources_spec (f : Form) :
  clear_all_sources f
  = {| form_config := form_config f; all_models := all_models f;
       form_target_model_id := form_target_model_id f;
       target_items := target_items f; target_index := target_index f;
       rows := []; add_button_enabled := add_button_enabled f;
       next_widget := next_widget f;
       deleted := deleted f ++ (row_widget <$> reverse (rows f));
       tips := tips f |}.
Proof.
  unfold clear_all_sources. rewrite clear_loop_spec.
  destruct (reverse (rows f)) as [|r rest] eqn:E; [|reflexivity].
  assert (Hnil : rows f = []).
  { apply (f_equal reverse) in E. rewrite reverse_involutive in E. exact E. }
  destruct f. simpl in *. subst. rewrite app_nil_r. reflexivity.
Qed.

Lemma remove_first_filter (w : positive) (rs : list Row) :
  NoDup (row_widget <$> rs) ->
  remove_first w rs = List.filter (fun r => negb (bool_decide (row_widget r = w))) rs.
Proof.
  induction rs as [|r rest IH]; [reflexivity|].
  rewrite fmap_cons. intros Hnd. apply NoDup_cons in Hnd as [Hnotin Hnd].
  simpl. destruct (bool_decide_reflect (row_widget r = w)) as [E|E]; simpl.
  - subst w. symmetry. apply forallb_filter_id. apply forallb_forall.
    intros r' Hin. apply negb_true_iff, bool_decide_eq_false_2.
    intros E. apply Hnotin. rewrite <- E. apply list_elem_of_fmap.
    exists r'. split; [reflexivity|]. apply list_elem_of_In. exact Hin.
  - rewrite (IH Hnd). reflexivity.
Qed.

Lemma remove_first_sublist (w : positive) (rs : list Row) :
  remove_first w rs `sublist_of` rs.
Proof.
  induction rs as [|r rest IH]; simpl; [constructor|].
  destruct (bool_decide (row_widget r = w)).
  - apply sublist_cons. reflexivity.
  - apply sublist_skip. exact IH.
Qed.

(** ** The invariant of the form *)

Lemma sublist_fmap_widget (rs rs' : list Row) :
  rs' `sublist_of` rs -> (row_widget <$> rs') `sublist_of` (row_widget <$> rs).
Proof.
  induction 1; simpl; [constructor | apply sublist_skip | apply sublist_cons];
    assumption.
Qed.

(** Dropping rows, with the target and the widget counter as they were,
    keeps the invariant. *)
Lemma form_ok_fewer_rows (f f' : Form) :
  form_ok f ->
  form_target_model_id f' = form_target_model_id f ->
  target_items f' = target_items f -> target_index f' = target_index f ->
  next_widget f' = next_widget f ->
  rows f' `sublist_of` rows f ->
  form_ok f'.
Proof.
  intros (Ha & Hb & Hc & Hd & He) Ht Hi Hx Hn Hsub.
  unfold form_ok. rewrite Ht, Hi, Hx, Hn. split; [exact Ha|]. split; [|split; [|split]].
  - intros E. rewrite (Hb E) in Hsub. apply sublist_nil_r. exact Hsub.
  - intros r t Hr. apply Hc. eapply elem_of_sublist; eassumption.
  - eapply sublist_NoDup; [exact Hd|]. apply sublist_fmap_widget. exact Hsub.
  - intros r Hr. apply He. eapply elem_of_sublist; eassumption.
Qed.

Lemma form_ok_clear_all_sources (f : Form) :
  form_ok f -> form_ok (clear_all_sources f).
Proof.
  intros H. apply (form_ok_fewer_rows f); try assumption;
    rewrite clear_all_sources_spec; try reflexivity.
  apply sublist_nil_l.
Qed.

Lemma form_ok_remove_source_ui (w : positive) (f : Form) :
  form_ok f -> form_ok (remove_source_ui w f).
Proof.
  intros H. unfold remove_source_ui.
  destruct (bool_decide (w ∈ row_widget <$> rows f)); [|exact H].
  apply (form_ok_fewer_rows f); try assumption; try reflexivity.
  apply remove_first_sublist.
Qed.

Lemma set_row_index_widget (w : positive) (i : Z) (r : Row) :
  row_widget (set_row_index w i r) = row_widget r.
Proof. unfold set_row_index. destruct (bool_decide _); reflexivity. Qed.

Lemma set_row_index_items (w : positive) (i : Z) (r : Row) :
  row_items (set_row_index w i r) = row_items r.
Proof. unfold set_row_index. destruct (bool_decide _); reflexivity. Qed.

Lemma form_ok_select_source (w : positive) (i : Z) (f : Form) :
  form_ok f -> form_ok (select_source w i f).
Proof.
  intros (Ha & Hb & Hc & Hd & He). unfold form_ok, select_source.
  cbn [set_rows form_target_model_id target_items target_index rows
       next_widget].
  split; [exact Ha|]. split; [|split; [|split]].
  - intros E. rewrite (Hb E). reflexivity.
  - intros r t Hr Ht. apply list_elem_of_fmap in Hr as (r0 & -> & Hr0).
    rewrite set_row_index_items. exact (Hc r0 t Hr0 Ht).
  - rewrite <- list_fmap_compose.
    rewrite (list_fmap_ext _ row_widget (rows f)); [exact Hd|].
    intros ? r _. apply set_row_index_widget.
  - intros r Hr. apply list_elem_of_fmap in Hr as (r0 & -> & Hr0).
    rewrite set_row_index_widget. exact (He r0 Hr0).
Qed.

Lemma available_not_target (f : Form) (t : Z) :
  form_target_model_id f = Some t ->
  Some t ∉ ((fun m => Some (nt_id m)) <$> get_available_source_models f).
Proof.
  intros Ht H. unfold get_available_source_models in H. rewrite Ht in H.
  apply list_elem_of_fmap in H as (m & E & Hm).
  apply list_elem_of_In, filter_In in Hm as [_ Hm].
  injection E as E. rewrite <- E, Z.eqb_refl in Hm. discriminate Hm.
Qed.

(** The form right after a row was appended. *)
Lemma form_ok_append_row (f : Form) (items : list (option Z)) (i : Z) :
  form_ok f ->
  is_Some (form_target_model_id f) ->
  (forall t, form_target_model_id f = Some t -> Some t ∉ items) ->
  form_ok (set_rows (rows f ++ [{| row_widget := next_widget f;
                                    row_items := items; row_index := i |}])
             (fresh_widget f)).
Proof.
  intros (Ha & Hb & Hc & Hd & He) [t0 Ht0] Hitems. unfold form_ok.
  cbn [set_rows fresh_widget form_target_model_id target_items target_index
       rows next_widget].
  split; [exact Ha|]. split; [|split; [|split]].
  - congruence.
  - intros r t Hr Ht. apply elem_of_app in Hr as [Hr|Hr].
    + exact (Hc r t Hr Ht).
    + apply list_elem_of_singleton in Hr as ->. simpl. exact (Hitems t Ht).
  - rewrite fmap_snoc. apply NoDup_app. split; [exact Hd|].
    split; [|apply NoDup_singleton].
    intros w Hw Hw'. apply list_elem_of_singleton in Hw'. simpl in Hw'.
    apply list_elem_of_fmap in Hw as (r & -> & Hr).
    specialize (He r Hr). rewrite Hw' in He. lia.
  - intros r Hr. apply elem_of_app in Hr as [Hr|Hr].
    + specialize (He r Hr). lia.
    + apply list_elem_of_singleton in Hr as ->. simpl. lia.
Qed.

Lemma form_ok_add_source_ui (sel : option Z) (f : Form) :
  form_ok f -> form_ok (add_source_ui sel f).
Proof.
  intros H. unfold add_source_ui.
  destruct (form_target_model_id f) as [t|] eqn:Ht; [|exact H].
  destruct (get_available_source_models f) as [|m ms] eqn:Hav; [exact H|].
  assert (Hnew : form_ok
    (set_rows (rows f ++ [{| row_widget := next_widget f;
                             row_items := None :: ((fun m => Some (nt_id m))
                                                     <$> m :: ms);
                             row_index := -1 |}]) (fresh_widget f))).
  { apply form_ok_append_row; [exact H | rewrite Ht; eauto |].
    intros t' Ht' Hin. apply elem_of_cons in Hin as [E|Hin]; [discriminate E|].
    rewrite <- Hav in Hin. exact (available_not_target f t' Ht' Hin). }
  cbn zeta. cbn [rows fresh_widget].
  destruct (truthy sel); [|exact Hnew].
  destruct (first_index _ sel).
  - apply form_ok_select_source. exact Hnew.
  - apply form_ok_remove_source_ui. exact Hnew.
Qed.

Lemma form_ok_target_model_selected (user_agrees : bool) (i : Z) (f : Form) :
  form_ok f ->
  form_ok (select_target user_agrees i f).
Proof.
  intros H. unfold select_target.
  destruct (Z.eqb_spec i (target_index f)) as [_|Hi]; [exact H|].
  destruct H as (Ha & Hb & Hc & Hd & He).
  unfold target_model_selected.
  cbn [set_target_index form_target_model_id target_items rows].
  destruct (bool_decide_reflect
              (item_data (target_items f) i = form_target_model_id f))
    as [Heq|Hneq].
  { unfold form_ok. cbn [set_target_index form_target_model_id target_items
      target_index rows next_widget]. auto. }
  destruct (truthy (item_data (target_items f) i)
            && negb (bool_decide (rows f = [])) && negb user_agrees).
  { (* the change is declined: the combo box goes back to the target *)
    unfold form_ok. cbn [set_target_index form_target_model_id target_items
      target_index rows next_widget].
    split; [|auto].
    destruct (first_index (target_items f) (form_target_model_id f))
      as [j|] eqn:Hj.
    - apply item_data_first_index. exact Hj.
    - apply first_index_None in Hj.
      destruct (form_target_model_id f) as [t|] eqn:Ht; [|reflexivity].
      exfalso. apply Hj. eapply item_data_elem. exact Ha. }
  (* the change goes through *)
  assert (Hclear : forall f2,
    form_target_model_id f2 = item_data (target_items f) i ->
    target_items f2 = target_items f -> target_index f2 = i ->
    rows f2 = [] -> form_ok f2).
  { intros f2 Ht Hit Hix Hr. unfold form_ok. rewrite Ht, Hit, Hix, Hr.
    split; [reflexivity|]. split; [auto|]. split; [|split].
    - intros r t Hin. inversion Hin.
    - constructor.
    - intros r Hin. inversion Hin. }
  cbn [form_target_model_id set_target_model_id set_target_index
       set_add_button rows].
  destruct (truthy (item_data (target_items f) i)).
  - destruct (form_target_model_id f) as [t|] eqn:Ht.
    + destruct (bool_decide_reflect (Some t = item_data (target_items f) i))
        as [E|_]; [congruence|]. cbn [negb].
      apply Hclear; rewrite ?clear_all_sources_spec; reflexivity.
    + apply Hclear; try reflexivity. exact (Hb eq_refl).
  - destruct (bool_decide_reflect (rows f = [])) as [Hr|_]; cbn [negb].
    + apply Hclear; try reflexivity. exact Hr.
    + apply Hclear; rewrite ?clear_all_sources_spec; reflexivity.
Qed.

Lemma form_ok_set_form_config (c : gmap string CfgVal) (f : Form) :
  form_ok f -> form_ok (set_form_config c f).
Proof. intros H. exact H. Qed.

Lemma form_ok_new_form (stored : option (gmap string CfgVal))
    (col : Collection) :
  form_ok (new_form stored col).
Proof.
  unfold form_ok, new_form. cbn. split; [reflexivity|]. split; [auto|].
  split; [|split].
  - intros r t Hin. inversion Hin.
  - constructor.
  - intros r Hin. inversion Hin.
Qed.

Lemma form_ok_load_config (user_agrees : bool) (f : Form) :
  form_ok f -> form_ok (fst (load_config user_agrees f)).
Proof.
  intros H. unfold load_config. cbn [fst].
  destruct (cfg_truthy _); [|exact H].
  destruct (cfg_as_data _) as [data|]; [|exact H].
  destruct (first_index _ _); [|exact H].
  apply form_ok_target_model_selected. exact H.
Qed.

Lemma form_ok_load_source_rows (col : Collection) (ids : list Z) :
  forall f, form_ok f -> form_ok (load_source_rows col ids f).
Proof.
  induction ids as [|id ids IH]; intros f H; simpl; [exact H|].
  destruct (bool_decide _); [apply IH; exact H|].
  destruct (models_get col id); apply IH; [|exact H].
  apply form_ok_add_source_ui. exact H.
Qed.

Lemma form_ok__load_sources (col : Collection) (pending : CfgVal) (f : Form) :
  form_ok f -> form_ok (_load_sources col pending f).
Proof.
  intros H. unfold _load_sources.
  destruct (negb (truthy (form_target_model_id f))).
  - destruct (cfg_truthy _); exact H.
  - pose proof (form_ok_clear_all_sources f H) as Hc.
    destruct pending; [exact Hc | exact Hc |].
    apply form_ok_load_source_rows. exact Hc.
Qed.

Lemma form_ok_handle (f : Form) (e : Event) :
  form_ok f -> form_ok (handle f e).
Proof.
  intros H. destruct e; simpl.
  - apply form_ok_target_model_selected. exact H.
  - apply form_ok_add_source_ui. exact H.
  - apply form_ok_remove_source_ui. exact H.
  - apply form_ok_select_source. exact H.
Qed.

(** X11: from the moment the dialog has loaded, through every choice of a
    target (confirmed or declined), every added and removed row and every
    choice within a row, the target combo box shows the target the form has
    recorded, rows exist only while a target is set, and no row offers the
    target as a source. *)
Theorem form_ok_always (user_agrees : bool)
    (stored : option (gmap string CfgVal)) (col : Collection)
    (events : list Event) :
  form_ok (foldl handle (open_dialog user_agrees stored col) events).
Proof.
  assert (H0 : form_ok (open_dialog user_agrees stored col)).
  { unfold open_dialog.
    pose proof (form_ok_load_config user_agrees (new_form stored col)
                  (form_ok_new_form stored col)) as H.
    destruct (load_config user_agrees (new_form stored col)) as [f pending].
    apply form_ok__load_sources. exact H. }
  revert H0. generalize (open_dialog user_agrees stored col).
  induction events as [|e events IH]; intros f H; simpl; [exact H|].
  apply IH, form_ok_handle, H.
Qed.

Lemma check_rows_source_is_target (rows : list (option Z)) :
  forall (t : Z) (used : gset Z) (sel : list Z),
    check_rows rows t used sel = inl info_source_is_target -> Some t ∈ rows.
Proof.
  induction rows as [|data rows IH]; intros t used sel; simpl; [discriminate|].
  destruct data as [id|]; [|discriminate].
  destruct (truthy (Some id)); cbn [negb]; [|discriminate].
  destruct (Z.eqb_spec id t) as [->|_]; [intros _; left|].
  destruct (bool_decide (id ∈ used)); [discriminate|].
  intros H. right. eapply IH. exact H.
Qed.

(** X12: on a form that keeps its invariant, [save_config] never has to
    report that a source is the same as the target: that check of the
    validation cannot fail from the dialog. *)
Theorem save_config_never_source_is_target (f : Form)
    (stored : gmap string CfgVal) (ok : bool) :
  form_ok f ->
  info_source_is_target ∉ shown (save_config (dialog_of f stored ok)).
Proof.
  intros (Ha & _ & Hc & _) Hin.
  assert (Hno : forall m, m <> info_source_is_target ->
                          info_source_is_target ∉ [m]).
  { intros m Hm H. apply list_elem_of_singleton in H. congruence. }
  revert Hin. unfold save_config.
  cbn [dialog_of target_combo source_widgets].
  rewrite Ha. destruct (form_target_model_id f) as [t|] eqn:Ht;
    [|apply Hno; discriminate].
  destruct (truthy (Some t)); cbn [negb]; [|apply Hno; discriminate].
  destruct (check_rows (row_data <$> rows f) t ∅ []) as [m|l] eqn:Hrows.
  - cbn. intros H. apply list_elem_of_singleton in H. subst m.
    apply check_rows_source_is_target in Hrows.
    apply list_elem_of_fmap in Hrows as (r & E & Hr).
    apply (Hc r t Hr eq_refl). eapply item_data_elem. symmetry. exact E.
  - destruct l as [|id l]; [apply Hno; discriminate|].
    unfold writeConfig. cbn. destruct ok; cbn; apply Hno; discriminate.
Qed.

(** X13: when a new target is picked while rows exist, declining the
    question leaves the rows and the recorded target as they are and puts
    the combo box back on the recorded target; agreeing records the new
    target, empties the rows and schedules every row widget for deletion. *)
Theorem select_target_with_rows (i : Z) (f : Form) :
  form_ok f ->
  rows f <> [] ->
  truthy (item_data (target_items f) i) = true ->
  item_data (target_items f) i <> form_target_model_id f ->
  (rows (select_target false i f) = rows f /\
   form_target_model_id (select_target false i f) = form_target_model_id f /\
   item_data (target_items (select_target false i f))
     (target_index (select_target false i f)) = form_target_model_id f) /\
  (rows (select_target true i f) = [] /\
   form_target_model_id (select_target true i f)
     = item_data (target_items f) i /\
   add_button_enabled (select_target true i f) = true /\
   deleted (select_target true i f)
     = deleted f ++ (row_widget <$> reverse (rows f))).
Proof.
  intros Hok Hrows Htruthy Hne.
  assert (Hi : i <> target_index f).
  { intros ->. apply Hne. apply Hok. }
  split.
  - pose proof (form_ok_target_model_selected false i f Hok) as (Ha & _).
    revert Ha. unfold select_target.
    destruct (Z.eqb_spec i (target_index f)) as [E|_]; [contradiction|].
    unfold target_model_selected.
    cbn [set_target_index form_target_model_id target_items rows].
    rewrite (bool_decide_eq_false_2 _ Hne), Htruthy.
    rewrite (bool_decide_eq_false_2 _ Hrows). cbn [negb andb].
    cbn [set_target_index form_target_model_id target_items target_index rows].
    auto.
  - unfold select_target.
    destruct (Z.eqb_spec i (target_index f)) as [E|_]; [contradiction|].
    unfold target_model_selected.
    cbn [set_target_index form_target_model_id target_items rows].
    rewrite (bool_decide_eq_false_2 _ Hne), Htruthy.
    rewrite (bool_decide_eq_false_2 _ Hrows). cbn [negb andb].
    cbn [form_target_model_id set_target_model_id set_target_index
         set_add_button rows].
    rewrite Htruthy.
    destruct (form_target_model_id f) as [t|] eqn:Ht.
    + rewrite bool_decide_eq_false_2 by congruence. cbn [negb].
      rewrite clear_all_sources_spec. cbn. auto.
    + destruct Hok as (_ & Hb & _). exfalso. exact (Hrows (Hb Ht)).
Qed.

(** X14: removing a row takes out exactly that row, leaves the others in
    their order with their selections and schedules its widget for
    deletion; removing a row that is not there changes nothing. *)
Theorem remove_source_ui_exact (w : positive) (f : Form) :
  form_ok f ->
  rows (remove_source_ui w f)
    = List.filter (fun r => negb (bool_decide (row_widget r = w))) (rows f) /\
  (w ∈ row_widget <$> rows f ->
   S (length (rows (remove_source_ui w f))) = length (rows f) /\
   deleted (remove_source_ui w f) = deleted f ++ [w]) /\
  (w ∉ row_widget <$> rows f -> remove_source_ui w f = f).
Proof.
  intros (_ & _ & _ & Hnd & _). unfold remove_source_ui.
  destruct (bool_decide_reflect (w ∈ row_widget <$> rows f)) as [Hin|Hout].
  - cbn [rows deleteLater set_rows deleted].
    split; [apply remove_first_filter; exact Hnd|].
    split; [|contradiction]. intros _. split; [|reflexivity].
    clear Hnd. induction (rows f) as [|r rest IH]; [inversion Hin|].
    simpl. destruct (bool_decide_reflect (row_widget r = w)) as [E|E];
      [reflexivity|].
    simpl. f_equal. apply IH. rewrite fmap_cons in Hin.
    apply elem_of_cons in Hin as [Hin|Hin]; [congruence | exact Hin].
  - split; [|split; [contradiction | reflexivity]].
    symmetry. apply forallb_filter_id, forallb_forall. intros r Hr.
    apply negb_true_iff, bool_decide_eq_false_2. intros E. apply Hout.
    rewrite <- E. apply list_elem_of_fmap_2, list_elem_of_In, Hr.
Qed.


(** The note types offered as sources are the note types of the
    dialog other than the target, in the dialog's order; without a target
    none is offered. *)
Theorem get_available_source_models_spec (f : Form) :
  get_available_source_models f `sublist_of` all_models f /\
  (forall m, m ∈ get_available_source_models f <->
     exists t, form_target_model_id f = Some t /\ m ∈ all_models f /\
               nt_id m <> t) /\
  (form_target_model_id f = None -> get_available_source_models f = []).
Proof.
  unfold get_available_source_models.
  destruct (form_target_model_id f) as [t|].
  - split; [|split; [|discriminate]].
    + induction (all_models f) as [|m ms IH]; simpl; [constructor|].
      destruct (negb (nt_id m =? t));
        [apply sublist_skip | apply sublist_cons]; exact IH.
    + intros m. rewrite list_elem_of_In, filter_In, <- list_elem_of_In.
      rewrite negb_true_iff, Z.eqb_neq. split.
      * intros [H1 H2]. eauto.
      * intros (t' & [= <-] & H1 & H2). auto.
  - split; [apply sublist_nil_l|]. split; [|reflexivity].
    intros m. split; [intros H; inversion H|].
    intros (t & E & _). discriminate E.
Qed.

(** ** Sorting the note types by name *)

Lemma pystr_ltb_asym (a : pystr) : forall b,
  pystr_ltb a b = true -> pystr_ltb b a = false.
Proof.
  induction a as [|x a IH]; intros [|y b]; simpl; try reflexivity;
    try discriminate.
  destruct (N.ltb_spec x y) as [Hxy|Hxy].
  - intros _. destruct (N.ltb_spec y x) as [Hyx|_]; [lia | reflexivity].
  - destruct (N.ltb_spec y x) as [Hyx|Hyx]; [discriminate|]. apply IH.
Qed.

Lemma insert_by_name_perm (m : NotetypeDict) (l : list NotetypeDict) :
  insert_by_name m l ≡ₚ m :: l.
Proof.
  induction l as [|m' l IH]; simpl; [reflexivity|].
  destruct (pystr_ltb (nt_name m) (nt_name m')); [reflexivity|].
  rewrite IH. apply Permutation_swap.
Qed.

Lemma insert_by_name_sorted (m : NotetypeDict) (l : list NotetypeDict) :
  Sorted name_le l -> Sorted name_le (insert_by_name m l).
Proof.
  induction 1 as [|m' l Hl IH Hhd]; simpl.
  - repeat constructor.
  - destruct (pystr_ltb (nt_name m) (nt_name m')) eqn:E.
    + constructor; [constructor; assumption|]. constructor.
      apply pystr_ltb_asym. exact E.
    + constructor; [exact IH|].
      destruct Hhd as [|m'' l' Hle]; simpl.
      * constructor. exact E.
      * destruct (pystr_ltb (nt_name m) (nt_name m'')); constructor;
          assumption.
Qed.

Lemma foldl_insert_by_name (l : list NotetypeDict) : forall acc,
  Sorted name_le acc ->
  foldl (fun sorted m => insert_by_name m sorted) acc l ≡ₚ acc ++ l /\
  Sorted name_le (foldl (fun sorted m => insert_by_name m sorted) acc l).
Proof.
  induction l as [|m l IH]; intros acc Hacc; simpl.
  - rewrite app_nil_r. auto.
  - destruct (IH (insert_by_name m acc) (insert_by_name_sorted m acc Hacc))
      as [Hp Hs].
    split; [|exact Hs]. rewrite Hp, insert_by_name_perm.
    simpl. apply Permutation_middle.
Qed.

(** X18: the note types the dialog works with are those of the collection,
    each as often as it occurs there, ordered by name. *)
Theorem sort_by_name_sorted (models : list NotetypeDict) :
  sort_by_name models ≡ₚ models /\ Sorted name_le (sort_by_name models).
Proof.
  destruct (foldl_insert_by_name models [] (Sorted_nil _)) as [Hp Hs].
  split; assumption.
Qed.


(** ** Opening the dialog on a stored configuration *)
















(** * The further properties at concrete inputs *)

Lemma on_add_note_change_type_stamps_and_flushes_witness :
  exists n',
    fst (on_add_note_change_type ascii_digit 1%positive demo_world) = Ret tt /\
    heap (snd (on_add_note_change_type ascii_digit 1%positive demo_world))
      !! 1%positive = Some n' /\
    note_mod n' = clock demo_world /\ note_usn n' = col_usn sample_col /\
    flushed (snd (on_add_note_change_type ascii_digit 1%positive demo_world))
    = flushed demo_world ++ [(1%positive, n')].
Proof.
  apply (on_add_note_change_type_stamps_and_flushes ascii_digit 1%positive
           demo_world demo_note basic cloze 20 sample_col).
  - reflexivity.
  - reflexivity.
  - simpl. left.
  - vm_compute. reflexivity.
  - reflexivity.
  - reflexivity.
  - reflexivity.
  - simpl. lia.
Defined.

Lemma on_add_note_change_type_keeps_markup_witness :
  contains_cloze ascii_digit
    (heap (snd (on_add_note_change_type ascii_digit 1%positive demo_world))
       !! 1%positive) = Ret true.
Proof.
  apply (on_add_note_change_type_keeps_markup ascii_digit 1%positive
           demo_world demo_note basic cloze 20 sample_col 0%nat
           (lit "The {{c1::mitochondrion}} is the powerhouse")).
  - reflexivity.
  - reflexivity.
  - simpl. left.
  - vm_compute. reflexivity.
  - reflexivity.
  - reflexivity.
  - reflexivity.
  - simpl. lia.
  - reflexivity.
  - exists (lit "The "), (lit "1"), (lit "mitochondrion"),
      (lit " is the powerhouse").
    split; [reflexivity|]. split; [discriminate|].
    repeat constructor.
  - simpl. lia.
Defined.

(** The markup is lost when it sits in a field the target has no room
    for. *)
Example markup_in_dropped_field :
  contains_cloze ascii_digit
    (heap (snd (on_add_note_change_type ascii_digit 1%positive
                  (sample_world [10] (Some 20) (Some sample_col)
                     (sample_note sample_col 10
                        [PStr (lit "front"); PStr (lit "back");
                         PStr (lit "{{c1::extra}}")]))))
       !! 1%positive) = Ret false.
Proof. vm_compute. reflexivity. Qed.


Lemma show_config_dialog_loads_saved_witness :
  show_config_dialog (dialog_with (Some 20) [Some 10; Some 30]) demo_world
  = Ret demo_world.
Proof.
  apply (proj1 (show_config_dialog_loads_saved
                  (dialog_with (Some 20) [Some 10; Some 30]) demo_world
                  eq_refl)).
Defined.

Example show_config_dialog_after_save :
  show_config_dialog (save_config (dialog_with (Some 20) [Some 10; Some 30]))
    plain_world
  = Ret (with_globals [10; 30] (Some 20) plain_world).
Proof. vm_compute. reflexivity. Qed.

Lemma hook_unhook_round_trip_witness :
  unhook_re_search_if_hooked (hook_re_search_if_needed re_clean) = re_clean.
Proof.
  apply (proj1 (hook_unhook_round_trip no_match re_clean eq_refl eq_refl)).
Defined.

Lemma _onClozeNew_old_restores_witness :
  _onClozeNew_old unit no_match [10] idle_onCloze legacy_editor
  = (Ret (Some tt), legacy_editor).
Proof.
  apply (_onClozeNew_old_restores unit no_match [10] idle_onCloze
           legacy_editor legacy_basic).
  - intros s. reflexivity.
  - reflexivity.
  - reflexivity.
  - reflexivity.
Defined.

Lemma _onClozeNew_40_restores_witness :
  _onClozeNew_40 unit 1 [10] idle_onCloze legacy_editor
  = (Ret (Some tt), legacy_editor).
Proof.
  apply (_onClozeNew_40_restores unit 1 [10] idle_onCloze legacy_editor
           legacy_basic).
  - intros s. reflexivity.
  - reflexivity.
Defined.

Lemma demo_form_ok : form_ok demo_form.
Proof.
  apply form_ok_add_source_ui, form_ok_target_model_selected,
    form_ok_new_form.
Qed.

Example demo_form_rows :
  (row_items <$> rows demo_form) = [[None; Some 10]] /\
  form_target_model_id demo_form = Some 20.
Proof. vm_compute. auto. Qed.

Lemma save_config_never_source_is_target_witness :
  info_source_is_target ∉ shown (save_config (dialog_of demo_form ∅ true)).
Proof.
  apply (save_config_never_source_is_target demo_form ∅ true).
  exact demo_form_ok.
Defined.

Lemma select_target_with_rows_witness :
  rows (select_target false 1 demo_form) = rows demo_form /\
  rows (select_target true 1 demo_form) = [].
Proof.
  assert (H := select_target_with_rows 1 demo_form demo_form_ok).
  destruct H as [(H1 & _) (H2 & _)].
  - vm_compute. discriminate.
  - vm_compute. reflexivity.
  - vm_compute. discriminate.
  - split; assumption.
Defined.

Lemma remove_source_ui_exact_witness :
  rows (remove_source_ui 1%positive demo_form)
  = List.filter (fun r => negb (bool_decide (row_widget r = 1%positive)))
      (rows demo_form).
Proof.
  apply (proj1 (remove_source_ui_exact 1%positive demo_form demo_form_ok)).
Defined.




Example reopened_rows :
  (row_data <$> rows (open_dialog true (Some (stored_with 20 [10; 99; 20]))
                        sample_col))
  = [Some 10].
Proof. vm_compute. reflexivity. Qed.
